(** * Task dashboard (App.svelte): the derived task list and the modal-driven
      CRUD handlers, embedded and verified.

    The component keeps its state in three Svelte stores ([tasks],
    [searchTerm], [filterStatus]) and a handful of component variables.  The
    embedding follows the script block of [src/App.svelte] handler by handler
    and the template for which events can be dispatched at all. *)

From Stdlib Require Import ZArith NArith String Ascii List Bool Lia.
From stdpp Require Import base decidable option list numbers.

Local Open Scope nat_scope.

(** ** JavaScript strings

    A JavaScript string is a sequence of UTF-16 code units and [s.length]
    counts code units, so a string is a list of numbers below 65536. *)

Abbreviation jsstring := (list N).

(** String literals of the source, which are all ASCII. *)
Fixpoint js (s : string) : jsstring :=
  match s with
  | EmptyString => []
  | String a s' => N_of_ascii a :: js s'
  end.

(** ToBoolean on a string: only the empty string is falsy. *)
Definition truthy (s : jsstring) : bool :=
  match s with
  | [] => false
  | _ :: _ => true
  end.

(** The code units [String.prototype.trim] strips: ECMAScript WhiteSpace
    (TAB, VT, FF, ZWNBSP and the space separators) and LineTerminator. *)
Definition is_white (c : N) : bool :=
  ((9 <=? c) && (c <=? 13) || (c =? 32) || (c =? 160) || (c =? 5760)
   || (8192 <=? c) && (c <=? 8202) || (c =? 8232) || (c =? 8233)
   || (c =? 8239) || (c =? 8287) || (c =? 12288) || (c =? 65279))%N.

Fixpoint trimStart (s : jsstring) : jsstring :=
  match s with
  | [] => []
  | c :: s' => if is_white c then trimStart s' else s
  end.

Definition trimEnd (s : jsstring) : jsstring := rev (trimStart (rev s)).

Definition trim (s : jsstring) : jsstring := trimEnd (trimStart s).

(** [s.startsWith(sub)] and [s.includes(sub)], both from position 0. *)
Fixpoint startsWith (s sub : jsstring) {struct sub} : bool :=
  match sub, s with
  | [], _ => true
  | _ :: _, [] => false
  | c :: sub', d :: s' => (c =? d)%N && startsWith s' sub'
  end.

Fixpoint includes (s sub : jsstring) : bool :=
  startsWith s sub
  || match s with
     | [] => false
     | _ :: s' => includes s' sub
     end.

(** [String.prototype.toLowerCase] is a builtin that the component only
    calls; the development is parametric in it.  For running the handlers
    on concrete data we use the mapping below, which is what the builtin
    does on strings whose code units are all ASCII. *)
Definition lower_ascii_unit (c : N) : N :=
  if ((65 <=? c) && (c <=? 90))%N then (c + 32)%N else c.

Definition toLowerCase_ascii (s : jsstring) : jsstring :=
  List.map lower_ascii_unit s.

(** ** Tasks *)

Inductive TaskStatus := Pending | InProgress | Completed.

(** The type [TaskStatus | 'All'] of the [filterStatus] store. *)
Inductive StatusFilter := All | Status (s : TaskStatus).

Record Task := mkTask {
  id : jsstring;
  title : jsstring;
  description : jsstring;
  status : TaskStatus;
  createdAt : jsstring
}.

#[export] Instance TaskStatus_eq_dec : EqDecision TaskStatus.
Proof. solve_decision. Defined.

#[export] Instance StatusFilter_eq_dec : EqDecision StatusFilter.
Proof. solve_decision. Defined.

#[export] Instance Task_eq_dec : EqDecision Task.
Proof. solve_decision. Defined.

Definition MAX_CHARACTERS : nat := 500.

(** ** The derived store [filteredTasks] *)

Section Component.

(** The builtins and the environment the script reads: [toLowerCase], the
    clock [Date.now()] at component creation, and
    [new Date(ms).toLocaleDateString()]. *)
Variable toLowerCase : jsstring -> jsstring.
Variable now : Z.
Variable toLocaleDateString : Z -> jsstring.

(** The callback of the second [filter]. *)
Definition matchesSearch (term : jsstring) (task : Task) : bool :=
  includes (toLowerCase (title task)) (toLowerCase term)
  || includes (toLowerCase (description task)) (toLowerCase term).

Definition filteredByStatus (all : list Task) (filter : StatusFilter) : list Task :=
  match filter with
  | All => all
  | Status s => List.filter (fun task => bool_decide (status task = s)) all
  end.

Definition filteredTasks (all : list Task) (term : jsstring)
    (filter : StatusFilter) : list Task :=
  if truthy term
  then List.filter (matchesSearch term) (filteredByStatus all filter)
  else filteredByStatus all filter.

(** *** The reference derivation, after the specification's wording *)

(** "[sub] is a substring of [s]". *)
Definition is_substring (sub s : jsstring) : Prop :=
  exists pre post, s = pre ++ sub ++ post.

(** Step 1: "if status filter is not All, retain only tasks whose status
    equals the filter; otherwise retain all". *)
Definition status_pred (filter : StatusFilter) (task : Task) : Prop :=
  filter <> All -> filter = Status (status task).

(** Step 2: "if the search term is non-empty, further retain only tasks
    where the lowercase search term is a substring of the lowercase title
    or the lowercase description". *)
Definition search_pred (term : jsstring) (task : Task) : Prop :=
  term <> [] ->
  is_substring (toLowerCase term) (toLowerCase (title task))
  \/ is_substring (toLowerCase term) (toLowerCase (description task)).

(** "Retain only": keep exactly the elements that satisfy [P], in order. *)
Inductive retain {A} (P : A -> Prop) : list A -> list A -> Prop :=
  | retain_nil : retain P [] []
  | retain_keep x l r : P x -> retain P l r -> retain P (x :: l) (x :: r)
  | retain_drop x l r : ~ P x -> retain P l r -> retain P (x :: l) r.

Definition derived_reference (all : list Task) (filter : StatusFilter)
    (term : jsstring) (result : list Task) : Prop :=
  exists kept, retain (status_pred filter) all kept
               /\ retain (search_pred term) kept result.

(** ** The mock data [initialTasks]

    The four clock reads of the initialiser happen within one script run and
    are taken to return the same instant [now]. *)

Definition initialTasks : list Task :=
  [ {| id := js "1";
       title := js "Design Dashboard UI with a focus on a clean and modern user experience";
       description := js "Create a clean and modern design for the task dashboard, including wireframes and mockups that are responsive on all devices. The design should be simple, intuitive, and easy to navigate for users of all skill levels. Pay special attention to color palettes and typography to create a visually appealing interface. It is important to create a comprehensive design system that will allow for easy scalability in the future. The design should also include mockups for both light and dark mode.";
       status := InProgress;
       createdAt := toLocaleDateString (now - 86400000)%Z |};
    {| id := js "2";
       title := js "Implement Task Creation and management functionality";
       description := js "Develop the form and logic for adding new tasks to the list. This includes input validation, status selection, and a confirmation dialog. The implementation should be robust and handle potential errors gracefully. It is a good idea to consider both server-side and client-side validation to ensure data integrity. The task creation form should also be accessible to users with disabilities, following WCAG guidelines.";
       status := Completed;
       createdAt := toLocaleDateString (now - 172800000)%Z |};
    {| id := js "3";
       title := js "Set up Project Environment and configure development tools";
       description := js "Initialize the Svelte, TypeScript, and Tailwind CSS project using Vite or SvelteKit. Configure ESLint and Prettier for code quality and consistency. Set up a component-based architecture for reusability and maintainability across the entire application. It is important to document all the setup steps clearly in the project README.";
       status := Completed;
       createdAt := toLocaleDateString (now - 259200000)%Z |};
    {| id := js "4";
       title := js "Add a comprehensive Search and Filter feature to the task list";
       description := js "Implement functionality to search by title and description and filter by task status. This feature should be fast and responsive, providing immediate feedback to the user as they type or change the filter. The search algorithm should be efficient and case-insensitive. Consider adding a debounce function to the search input to prevent excessive re-renders.";
       status := Pending;
       createdAt := toLocaleDateString now |} ].

(** The later revision of the component has the same handlers and
    template guards (its two loading flags are stores) and other mock data. *)
Definition initialTasks_revised : list Task :=
  [ {| id := js "1";
       title := js "Design a clean and modern dashboard user interface quickly";
       description := js "Create a modern dashboard UI with responsive layouts. Focus on intuitive navigation, appealing color schemes, typography, and accessibility standards. Include wireframes, mockups, and a design system that supports scalability. Ensure the interface is visually appealing in both light and dark themes while maintaining consistency across components and devices.";
       status := InProgress;
       createdAt := toLocaleDateString (now - 86400000)%Z |};
    {| id := js "2";
       title := js "Implement task creation, editing, and management functionality effectively";
       description := js "Develop forms and logic to allow adding, editing, and managing tasks. Include input validation, status selection, confirmation dialogs, and proper error handling. Ensure accessibility according to WCAG guidelines and provide a smooth, responsive user experience. Consider both client-side and server-side validation to maintain data integrity and reliability across devices and sessions.";
       status := Completed;
       createdAt := toLocaleDateString (now - 172800000)%Z |};
    {| id := js "3";
       title := js "Set up project environment and configure development tools properly";
       description := js "Initialize the Svelte, TypeScript, and Tailwind project using Vite or SvelteKit. Configure ESLint, Prettier, and code linting for quality. Set up reusable components and modular architecture. Document all setup steps clearly in the README. Ensure the project is ready for scalable development and maintainability while following best coding practices for consistency.";
       status := Completed;
       createdAt := toLocaleDateString (now - 259200000)%Z |};
    {| id := js "4";
       title := js "Add a search and filter feature for tasks efficiently";
       description := js "Implement functionality to search tasks by title or description and filter them by status. Ensure the feature is fast, responsive, and provides immediate feedback. Optimize the search algorithm for efficiency, add debouncing to input, and maintain case-insensitive matching. Include proper UX feedback, error handling, and responsiveness for desktop and mobile devices across the application.";
       status := Pending;
       createdAt := toLocaleDateString now |} ].

(** ** Component state

    The three stores and the component variables of the script block.  (The
    theme store [isDarkMode] only drives styling and is left out.) *)

Record State := mkState {
  tasks : list Task;
  searchTerm : jsstring;
  filterStatus : StatusFilter;
  isContentLoading : bool;
  isEditModalOpen : bool;
  isDeleteModalOpen : bool;
  isAddModalOpen : bool;
  isLoading : bool;
  currentTask : option Task;
  newTaskTitle : jsstring;
  newTaskDescription : jsstring;
  newTaskStatus : TaskStatus;
  confirmMessage : jsstring;
  pendingTaskToDelete : option Task
}.

(** The state right after the script block has run. *)
Definition initialState : State :=
  {| tasks := [];
     searchTerm := [];
     filterStatus := All;
     isContentLoading := true;
     isEditModalOpen := false;
     isDeleteModalOpen := false;
     isAddModalOpen := false;
     isLoading := false;
     currentTask := None;
     newTaskTitle := [];
     newTaskDescription := [];
     newTaskStatus := Pending;
     confirmMessage := [];
     pendingTaskToDelete := None |}.

(** Assignments to a single store or variable. *)
Definition set_tasks (v : list Task) (st : State) : State :=
  mkState v (searchTerm st) (filterStatus st) (isContentLoading st) (isEditModalOpen st) (isDeleteModalOpen st) (isAddModalOpen st) (isLoading st) (currentTask st) (newTaskTitle st) (newTaskDescription st) (newTaskStatus st) (confirmMessage st) (pendingTaskToDelete st).
Definition set_searchTerm (v : jsstring) (st : State) : State :=
  mkState (tasks st) v (filterStatus st) (isContentLoading st) (isEditModalOpen st) (isDeleteModalOpen st) (isAddModalOpen st) (isLoading st) (currentTask st) (newTaskTitle st) (newTaskDescription st) (newTaskStatus st) (confirmMessage st) (pendingTaskToDelete st).
Definition set_filterStatus (v : StatusFilter) (st : State) : State :=
  mkState (tasks st) (searchTerm st) v (isContentLoading st) (isEditModalOpen st) (isDeleteModalOpen st) (isAddModalOpen st) (isLoading st) (currentTask st) (newTaskTitle st) (newTaskDescription st) (newTaskStatus st) (confirmMessage st) (pendingTaskToDelete st).
Definition set_isContentLoading (v : bool) (st : State) : State :=
  mkState (tasks st) (searchTerm st) (filterStatus st) v (isEditModalOpen st) (isDeleteModalOpen st) (isAddModalOpen st) (isLoading st) (currentTask st) (newTaskTitle st) (newTaskDescription st) (newTaskStatus st) (confirmMessage st) (pendingTaskToDelete st).
Definition set_isEditModalOpen (v : bool) (st : State) : State :=
  mkState (tasks st) (searchTerm st) (filterStatus st) (isContentLoading st) v (isDeleteModalOpen st) (isAddModalOpen st) (isLoading st) (currentTask st) (newTaskTitle st) (newTaskDescription st) (newTaskStatus st) (confirmMessage st) (pendingTaskToDelete st).
Definition set_isDeleteModalOpen (v : bool) (st : State) : State :=
  mkState (tasks st) (searchTerm st) (filterStatus st) (isContentLoading st) (isEditModalOpen st) v (isAddModalOpen st) (isLoading st) (currentTask st) (newTaskTitle st) (newTaskDescription st) (newTaskStatus st) (confirmMessage st) (pendingTaskToDelete st).
Definition set_isAddModalOpen (v : bool) (st : State) : State :=
  mkState (tasks st) (searchTerm st) (filterStatus st) (isContentLoading st) (isEditModalOpen st) (isDeleteModalOpen st) v (isLoading st) (currentTask st) (newTaskTitle st) (newTaskDescription st) (newTaskStatus st) (confirmMessage st) (pendingTaskToDelete st).
Definition set_isLoading (v : bool) (st : State) : State :=
  mkState (tasks st) (searchTerm st) (filterStatus st) (isContentLoading st) (isEditModalOpen st) (isDeleteModalOpen st) (isAddModalOpen st) v (currentTask st) (newTaskTitle st) (newTaskDescription st) (newTaskStatus st) (confirmMessage st) (pendingTaskToDelete st).
Definition set_currentTask (v : option Task) (st : State) : State :=
  mkState (tasks st) (searchTerm st) (filterStatus st) (isContentLoading st) (isEditModalOpen st) (isDeleteModalOpen st) (isAddModalOpen st) (isLoading st) v (newTaskTitle st) (newTaskDescription st) (newTaskStatus st) (confirmMessage st) (pendingTaskToDelete st).
Definition set_newTaskTitle (v : jsstring) (st : State) : State :=
  mkState (tasks st) (searchTerm st) (filterStatus st) (isContentLoading st) (isEditModalOpen st) (isDeleteModalOpen st) (isAddModalOpen st) (isLoading st) (currentTask st) v (newTaskDescription st) (newTaskStatus st) (confirmMessage st) (pendingTaskToDelete st).
Definition set_newTaskDescription (v : jsstring) (st : State) : State :=
  mkState (tasks st) (searchTerm st) (filterStatus st) (isContentLoading st) (isEditModalOpen st) (isDeleteModalOpen st) (isAddModalOpen st) (isLoading st) (currentTask st) (newTaskTitle st) v (newTaskStatus st) (confirmMessage st) (pendingTaskToDelete st).
Definition set_newTaskStatus (v : TaskStatus) (st : State) : State :=
  mkState (tasks st) (searchTerm st) (filterStatus st) (isContentLoading st) (isEditModalOpen st) (isDeleteModalOpen st) (isAddModalOpen st) (isLoading st) (currentTask st) (newTaskTitle st) (newTaskDescription st) v (confirmMessage st) (pendingTaskToDelete st).
Definition set_confirmMessage (v : jsstring) (st : State) : State :=
  mkState (tasks st) (searchTerm st) (filterStatus st) (isContentLoading st) (isEditModalOpen st) (isDeleteModalOpen st) (isAddModalOpen st) (isLoading st) (currentTask st) (newTaskTitle st) (newTaskDescription st) (newTaskStatus st) v (pendingTaskToDelete st).
Definition set_pendingTaskToDelete (v : option Task) (st : State) : State :=
  mkState (tasks st) (searchTerm st) (filterStatus st) (isContentLoading st) (isEditModalOpen st) (isDeleteModalOpen st) (isAddModalOpen st) (isLoading st) (currentTask st) (newTaskTitle st) (newTaskDescription st) (newTaskStatus st) (confirmMessage st) v.

(** Assignments to a field of the draft object, as [bind:value] on the edit
    form performs them ([currentTask.title = value]). *)
Definition with_title (v : jsstring) (t : Task) : Task :=
  mkTask (id t) v (description t) (status t) (createdAt t).
Definition with_description (v : jsstring) (t : Task) : Task :=
  mkTask (id t) (title t) v (status t) (createdAt t).
Definition with_status (v : TaskStatus) (t : Task) : Task :=
  mkTask (id t) (title t) (description t) v (createdAt t).

(** ** Event handlers

    Task objects are never mutated while the store holds them: the edit form
    writes to [currentTask], which [openEditModal] makes a fresh copy each
    time the form is opened, so values without identity model them. *)

(** The callback of the [setTimeout] in [onMount]. *)
Definition onMount_timeout (st : State) : State :=
  set_isContentLoading false (set_tasks initialTasks st).

Definition resetNewTaskForm (st : State) : State :=
  set_newTaskStatus Pending (set_newTaskDescription [] (set_newTaskTitle [] st)).

(** [addTask] is an async function with one [await].  A call runs up to
    the early [return] or up to the [await]; the rest runs when the timer
    fires, on the state as it is then. *)
Inductive Suspended := Returned (st : State) | Awaiting (st : State).

Definition addTask (st : State) : Suspended :=
  if negb (truthy (trim (newTaskTitle st)))
     || (MAX_CHARACTERS <? length (newTaskDescription st))
  then Returned st
  else Awaiting (set_isLoading true st).

(** The part of [addTask] after the [await]; [uuid] is what
    [crypto.randomUUID()] returns and [time] the clock at that moment. *)
Definition addTask_resume (uuid : jsstring) (time : Z) (st : State) : State :=
  let newTask :=
    {| id := uuid;
       title := newTaskTitle st;
       description := newTaskDescription st;
       status := newTaskStatus st;
       createdAt := toLocaleDateString time |} in
  resetNewTaskForm
    (set_isAddModalOpen false
      (set_isLoading false
        (set_tasks (tasks st ++ [newTask]) st))).

Definition handleCancelAddTask (st : State) : State :=
  set_isAddModalOpen false (resetNewTaskForm st).

Definition openEditModal (task : Task) (st : State) : State :=
  set_isEditModalOpen true (set_currentTask (Some task) st).

Definition saveEditedTask (st : State) : State :=
  match currentTask st with
  | Some draft =>
      if length (description draft) <=? MAX_CHARACTERS
      then set_isEditModalOpen false
             (set_tasks
                (List.map (fun task =>
                   if bool_decide (id task = id draft) then draft else task)
                   (tasks st))
                st)
      else st
  | None => st
  end.

Definition openDeleteModal (task : Task) (st : State) : State :=
  set_isDeleteModalOpen true
    (set_confirmMessage
       (js "Are you sure you want to delete the task titled " ++ [34%N]
        ++ title task ++ [34%N] ++ js "?")
       (set_pendingTaskToDelete (Some task) st)).

Definition closeDeleteModal (st : State) : State :=
  set_confirmMessage []
    (set_pendingTaskToDelete None (set_isDeleteModalOpen false st)).

Definition deleteTask (st : State) : State :=
  closeDeleteModal
    match pendingTaskToDelete st with
    | Some pending =>
        set_tasks
          (List.filter (fun task => negb (bool_decide (id task = id pending)))
             (tasks st))
          st
    | None => st
    end.

(** ** The running component

    Besides the component state, the page has timers in flight: the one set
    in [onMount] and one per [addTask] call suspended at its [await]. *)

Record System := mkSystem {
  app : State;
  addTimers : nat;
  mountTimer : bool
}.

Definition initialSystem : System :=
  {| app := initialState; addTimers := 0; mountTimer := true |}.

(** What can happen to the page: a timer fires, or the user acts on a
    control the template renders. *)
Inductive Event :=
  | MountTimeout
  | InputSearch (v : jsstring)
  | ClickFilter (f : StatusFilter)
  | ClickAddNew
  | InputNewTitle (v : jsstring)
  | InputNewDescription (v : jsstring)
  | SelectNewStatus (s : TaskStatus)
  | SubmitAdd
  | CancelAdd
  | AddTimeout (uuid : jsstring) (time : Z)
  | ClickEdit (task : Task)
  | InputEditTitle (v : jsstring)
  | InputEditDescription (v : jsstring)
  | SelectEditStatus (s : TaskStatus)
  | SubmitEdit
  | CancelEdit
  | ClickDelete (task : Task)
  | ConfirmDelete
  | CancelDelete.

Definition on_app (f : State -> State) (s : System) : System :=
  {| app := f (app s); addTimers := addTimers s; mountTimer := mountTimer s |}.

Definition when (b : bool) (s : System) : option System :=
  if b then Some s else None.

(** The cards of the list are rendered from [$filteredTasks]. *)
Definition shown (st : State) : list Task :=
  filteredTasks (tasks st) (searchTerm st) (filterStatus st).

(** The draft of the edit form, written through [bind:value]. *)
Definition edit_draft (f : Task -> Task) (st : State) : State :=
  set_currentTask (f <$> currentTask st) st.

(** [fire e s] is the page after event [e], or [None] when the template
    does not offer [e] in [s]:
    - header, filter buttons and cards are inside [{#if isContentLoading}
      ... {:else}];
    - each modal is inside [{#if is...ModalOpen}], the edit form moreover
      inside [{#if currentTask}];
    - both title inputs are [required];
    - the submit buttons are [disabled] as their attribute says.

    Stacking of the modal backdrops is styling and restrains the pointer
    only; it is not a guard here.  Nor is [maxlength] on the description
    areas: a browser may hold the user to it, the value bound to the form
    is not held to it, and the handlers and the [disabled] attributes
    check the length themselves. *)
Definition fire (e : Event) (s : System) : option System :=
  let st := app s in
  match e with
  | MountTimeout =>
      when (mountTimer s)
        {| app := onMount_timeout st; addTimers := addTimers s;
           mountTimer := false |}
  | InputSearch v =>
      when (negb (isContentLoading st)) (on_app (set_searchTerm v) s)
  | ClickFilter f =>
      when (negb (isContentLoading st)) (on_app (set_filterStatus f) s)
  | ClickAddNew =>
      when (negb (isContentLoading st)) (on_app (set_isAddModalOpen true) s)
  | InputNewTitle v =>
      when (isAddModalOpen st) (on_app (set_newTaskTitle v) s)
  | InputNewDescription v =>
      when (isAddModalOpen st) (on_app (set_newTaskDescription v) s)
  | SelectNewStatus v =>
      when (isAddModalOpen st) (on_app (set_newTaskStatus v) s)
  | SubmitAdd =>
      when (isAddModalOpen st
            && truthy (newTaskTitle st)
            && negb (isLoading st
                     || (MAX_CHARACTERS <? length (newTaskDescription st))))
        match addTask st with
        | Returned st' => on_app (fun _ => st') s
        | Awaiting st' =>
            {| app := st'; addTimers := S (addTimers s);
               mountTimer := mountTimer s |}
        end
  | CancelAdd =>
      when (isAddModalOpen st) (on_app handleCancelAddTask s)
  | AddTimeout uuid time =>
      match addTimers s with
      | S n =>
          Some {| app := addTask_resume uuid time st; addTimers := n;
                  mountTimer := mountTimer s |}
      | O => None
      end
  | ClickEdit task =>
      when (negb (isContentLoading st) && bool_decide (task ∈ shown st))
        (on_app (openEditModal task) s)
  | InputEditTitle v =>
      when (isEditModalOpen st && bool_decide (is_Some (currentTask st)))
        (on_app (edit_draft (with_title v)) s)
  | InputEditDescription v =>
      when (isEditModalOpen st && bool_decide (is_Some (currentTask st)))
        (on_app (edit_draft (with_description v)) s)
  | SelectEditStatus v =>
      when (isEditModalOpen st && bool_decide (is_Some (currentTask st)))
        (on_app (edit_draft (with_status v)) s)
  | SubmitEdit =>
      when (isEditModalOpen st
            && match currentTask st with
               | Some draft =>
                   truthy (title draft)
                   && negb (MAX_CHARACTERS <? length (description draft))
               | None => false
               end)
        (on_app saveEditedTask s)
  | CancelEdit =>
      when (isEditModalOpen st && bool_decide (is_Some (currentTask st)))
        (on_app (set_isEditModalOpen false) s)
  | ClickDelete task =>
      when (negb (isContentLoading st) && bool_decide (task ∈ shown st))
        (on_app (openDeleteModal task) s)
  | ConfirmDelete =>
      when (isDeleteModalOpen st) (on_app deleteTask s)
  | CancelDelete =>
      when (isDeleteModalOpen st) (on_app closeDeleteModal s)
  end.

(** Running a sequence of events from a state. *)
Fixpoint run (es : list Event) (s : System) : option System :=
  match es with
  | [] => Some s
  | e :: es' =>
      match fire e s with
      | Some s' => run es' s'
      | None => None
      end
  end.

Inductive reachable : System -> Prop :=
  | reachable_init : reachable initialSystem
  | reachable_fire e s s' : reachable s -> fire e s = Some s' -> reachable s'.

(** *** Stated properties of the running component *)

Definition description_within_limit (task : Task) : Prop :=
  length (description task) <= MAX_CHARACTERS.

Definition modals_open (st : State) : nat :=
  (if isAddModalOpen st then 1 else 0)
  + (if isEditModalOpen st then 1 else 0)
  + (if isDeleteModalOpen st then 1 else 0).

(** The events that open a modal. *)
Definition opens_modal (e : Event) : bool :=
  match e with
  | ClickAddNew | ClickEdit _ | ClickDelete _ => true
  | _ => false
  end.

(** States reached when a modal is only ever opened while none is open. *)
Inductive reachable_unstacked : System -> Prop :=
  | unstacked_init : reachable_unstacked initialSystem
  | unstacked_fire e s s' :
      reachable_unstacked s ->
      (opens_modal e = true -> modals_open (app s) = 0) ->
      fire e s = Some s' ->
      reachable_unstacked s'.

End Component.

(** ** Concrete data for running the component *)

(** A formatter standing for [toLocaleDateString]; the clock starts at 0. *)
Definition sample_date (ms : Z) : jsstring := js "11/2/2026".

Definition page_run : list Event -> System -> option System :=
  run toLowerCase_ascii 0%Z sample_date.

Definition page_reachable : System -> Prop :=
  reachable toLowerCase_ascii 0%Z sample_date.

(** The page after the events [es], from the start. *)
Definition after (es : list Event) : System :=
  default initialSystem (page_run es initialSystem).

(** The [i]-th task of the mock data. *)
Definition seed_task (i : nat) : Task :=
  nth i (initialTasks 0%Z sample_date) (mkTask [] [] [] Pending []).

(** The store of the specification's scenarios B and C, and a task without
    any white space in it. *)
Definition buy_milk : Task :=
  mkTask (js "a") (js "Buy milk") [] Pending (js "11/2/2026").
Definition write_report : Task :=
  mkTask (js "b") (js "Write report") [] Completed (js "11/2/2026").
Definition buymilk : Task :=
  mkTask (js "c") (js "Buymilk") [] Pending (js "11/2/2026").
Definition scenario_store : list Task := [buy_milk; write_report].

(** A string of [n] letters. *)
Definition letters (n : nat) : jsstring := repeat 97%N n.

(** The add form changed while a submission is under way. *)
Definition changed_while_pending : list Event :=
  [ MountTimeout; ClickAddNew; InputNewTitle (js "Buy milk"); SubmitAdd;
    InputNewTitle (js "Changed"); SelectNewStatus Completed;
    AddTimeout (js "uuid-1") 0%Z ].

(** A description of 501 letters entered while a submission is under way. *)
Definition overlong_while_pending : list Event :=
  [ MountTimeout; ClickAddNew; InputNewTitle (js "Buy milk"); SubmitAdd;
    InputNewDescription (letters 501); AddTimeout (js "uuid-1") 0%Z ].

(** [String.prototype.toUpperCase] on strings made of ASCII code units and
    the sharp s (U+00DF, code unit 223), which it turns into the two code
    units SS.  On those strings [toLowerCase_ascii] is the builtin
    [toLowerCase] as well: the sharp s is a lower-case letter already. *)
Definition upper_ascii_unit (c : N) : jsstring :=
  if ((97 <=? c) && (c <=? 122))%N then [(c - 32)%N]
  else if (c =? 223)%N then [83%N; 83%N]
  else [c].

Definition toUpperCase_ascii (s : jsstring) : jsstring :=
  flat_map upper_ascii_unit s.

(** A search term with a sharp s, and a task that has it in its title. *)
Definition strasse : jsstring := js "stra" ++ [223%N] ++ js "e".
Definition strasse_task : Task :=
  mkTask (js "d") (js "Stra" ++ [223%N] ++ js "e") [] Pending (js "11/2/2026").

(** Add-form drafts at the description boundary. *)
Definition draft_of (t d : jsstring) : State :=
  set_newTaskDescription d (set_newTaskTitle t (set_isAddModalOpen true initialState)).

(** Editing the title of the second scenario task. *)
Definition editing_report : State :=
  set_isEditModalOpen true
    (set_currentTask (Some (with_title (js "Write summary") write_report))
       (set_tasks scenario_store initialState)).

(** Deleting the first scenario task. *)
Definition deleting_milk : State :=
  openDeleteModal buy_milk (set_tasks scenario_store initialState).

(** A submission under way. *)
Definition submitted : list Event :=
  [ MountTimeout; ClickAddNew; InputNewTitle (js "Buy milk"); SubmitAdd ].

(** The add form typed in and cancelled. *)
Definition typed_and_cancelled : list Event :=
  [ MountTimeout; ClickAddNew; InputNewTitle (js "Buy milk"); CancelAdd ].

(** ** Text shown on a card

    [truncateText] cuts a description after [maxWords] words.  The cards
    call it with the literal 100; [maxWords] is a natural number here, for
    which [words.slice(0, maxWords)] takes the first [maxWords] words. *)

(** [s.split(sep)] for a separator of one code unit. *)
Fixpoint split (sep : N) (s : jsstring) : list jsstring :=
  match s with
  | [] => [[]]
  | c :: s' =>
      if (c =? sep)%N then [] :: split sep s'
      else match split sep s' with
           | w :: ws => (c :: w) :: ws
           | [] => [[c]]
           end
  end.

(** [ws.join(sep)]. *)
Fixpoint join (sep : jsstring) (ws : list jsstring) : jsstring :=
  match ws with
  | [] => []
  | w :: ws' =>
      match ws' with
      | [] => w
      | _ :: _ => w ++ sep ++ join sep ws'
      end
  end.

Definition truncateText (text : jsstring) (maxWords : nat) : jsstring :=
  if negb (truthy text) then []
  else
    let words := split 32%N text in
    if maxWords <? length words
    then join [32%N] (take maxWords words) ++ js "..."
    else text.

(** ** Notions used to state properties *)

(** What the two filters of [filteredTasks] ask of one task. *)
Definition visible (toLowerCase : jsstring -> jsstring) (term : jsstring)
    (filter : StatusFilter) (task : Task) : bool :=
  match filter with
  | All => true
  | Status s => bool_decide (status task = s)
  end
  && (if truthy term then matchesSearch toLowerCase term task else true).


(** The text of the delete confirmation for a title. *)
Definition confirm_text (t : jsstring) : jsstring :=
  js "Are you sure you want to delete the task titled " ++ [34%N]
  ++ t ++ [34%N] ++ js "?".

(** The add form as [resetNewTaskForm] leaves it. *)
Definition form_blank (st : State) : Prop :=
  newTaskTitle st = [] /\ newTaskDescription st = []
  /\ newTaskStatus st = Pending.

(** How the modal flags relate to the data the modals show. *)
Definition modal_data_consistent (st : State) : Prop :=
  (isEditModalOpen st = true -> is_Some (currentTask st))
  /\ (isDeleteModalOpen st = true <-> is_Some (pendingTaskToDelete st))
  /\ confirmMessage st
     = match pendingTaskToDelete st with
       | Some pending => confirm_text (title pending)
       | None => []
       end.

Section FreshIdentifiers.

Variable toLowerCase : jsstring -> jsstring.
Variable now : Z.
Variable toLocaleDateString : Z -> jsstring.

(** [crypto.randomUUID()] returning an identifier no stored task has. *)
Definition fresh_uuid (e : Event) (st : State) : Prop :=
  match e with
  | AddTimeout uuid _ => uuid ∉ List.map id (tasks st)
  | _ => True
  end.

(** States reached when every generated identifier is fresh. *)
Inductive reachable_fresh : System -> Prop :=
  | fresh_init : reachable_fresh initialSystem
  | fresh_fire e s s' :
      reachable_fresh s ->
      fresh_uuid e (app s) ->
      fire toLowerCase now toLocaleDateString e s = Some s' ->
      reachable_fresh s'.

End FreshIdentifiers.

(** * Properties *)

(** ** Strings *)

Lemma startsWith_prefix (s sub : jsstring) :
  startsWith s sub = true <-> exists post, s = sub ++ post.
Proof.
  revert s. induction sub as [|c sub IH]; intros s; simpl.
  - split; [intros _; now exists s | reflexivity].
  - destruct s as [|d s].
    + split; [discriminate | intros [post H]; discriminate].
    + rewrite andb_true_iff, N.eqb_eq, IH. split.
      * intros [-> [post ->]]. now exists post.
      * intros [post H]. injection H as -> ->. split; [reflexivity | now exists post].
Qed.

Lemma includes_substring (s sub : jsstring) :
  includes s sub = true <-> exists pre post, s = pre ++ sub ++ post.
Proof.
  induction s as [|d s IH]; simpl; rewrite orb_true_iff, startsWith_prefix.
  - split.
    + intros [[post H] | H]; [| discriminate]. now exists [], post.
    + intros (pre & post & H). left.
      destruct pre; [now exists post | discriminate].
  - rewrite IH. split.
    + intros [[post H] | (pre & post & H)].
      * now exists [], post.
      * exists (d :: pre), post. simpl. now rewrite H.
    + intros (pre & post & H). destruct pre as [|p pre]; simpl in H.
      * left. now exists post.
      * right. injection H as _ ->. now exists pre, post.
Qed.

Lemma trimStart_nil (s : jsstring) :
  trimStart s = [] <-> forallb is_white s = true.
Proof.
  induction s as [|c s IH]; simpl; [easy |].
  destruct (is_white c); simpl; [exact IH | easy].
Qed.

Lemma trimStart_all_white (s : jsstring) :
  forallb is_white s = true -> forallb is_white (trimStart s) = true.
Proof. intros H. apply trimStart_nil in H. now rewrite H. Qed.

Lemma trimStart_suffix (s : jsstring) :
  exists pre, forallb is_white pre = true /\ s = pre ++ trimStart s.
Proof.
  induction s as [|c s (pre & Hw & IH)]; simpl.
  - now exists [].
  - destruct (is_white c) eqn:Hc.
    + exists (c :: pre). simpl. rewrite Hc, Hw. split; [reflexivity | congruence].
    + now exists [].
Qed.

Lemma forallb_reverse {A} (f : A -> bool) (l : list A) :
  forallb f (rev l) = forallb f l.
Proof.
  induction l as [|x l IH]; simpl; [reflexivity |].
  rewrite forallb_app, IH. simpl. rewrite andb_true_r. apply andb_comm.
Qed.

(** [trim] yields the empty string exactly on the strings made of white
    space only (the empty string among them). *)
Lemma trim_nil (s : jsstring) :
  trim s = [] <-> forallb is_white s = true.
Proof.
  unfold trim, trimEnd. split.
  - intros H. apply (f_equal (@rev N)) in H. rewrite rev_involutive in H.
    simpl in H. apply trimStart_nil in H. rewrite forallb_reverse in H.
    destruct (trimStart_suffix s) as (pre & Hw & Hs).
    rewrite Hs, forallb_app, Hw, H. reflexivity.
  - intros H. apply trimStart_nil in H. now rewrite H.
Qed.

Lemma truthy_true (s : jsstring) : truthy s = true <-> s <> [].
Proof. destruct s; simpl; split; congruence. Qed.

Lemma truthy_false (s : jsstring) : truthy s = false <-> s = [].
Proof. destruct s; simpl; split; congruence. Qed.

(** ** Retaining *)

Lemma retain_filter {A} (P : A -> Prop) (f : A -> bool) (l : list A) :
  (forall x, f x = true <-> P x) -> retain P l (List.filter f l).
Proof.
  intros Hf. induction l as [|x l IH]; simpl; [constructor |].
  destruct (f x) eqn:Hx.
  - apply retain_keep; [now apply Hf | exact IH].
  - apply retain_drop; [| exact IH]. rewrite <- Hf. congruence.
Qed.

Lemma retain_all {A} (P : A -> Prop) (l : list A) :
  (forall x, P x) -> retain P l l.
Proof. intros HP. induction l; constructor; auto. Qed.

Lemma retain_functional {A} (P : A -> Prop) (l r1 r2 : list A) :
  retain P l r1 -> retain P l r2 -> r1 = r2.
Proof.
  intros H1. revert r2.
  induction H1 as [|x l r HP _ IH|x l r HP _ IH]; intros r2 H2;
    inversion H2; subst; try contradiction; auto.
  f_equal. auto.
Qed.

Lemma filter_sublist {A} (f : A -> bool) (l : list A) :
  List.filter f l `sublist_of` l.
Proof.
  induction l as [|x l IH]; simpl; [constructor |].
  destruct (f x); [now apply sublist_skip | now apply sublist_cons].
Qed.

Lemma elem_of_filter {A} (f : A -> bool) (l : list A) (x : A) :
  x ∈ List.filter f l <-> x ∈ l /\ f x = true.
Proof. rewrite !list_elem_of_In. apply filter_In. Qed.

(** ** The derived list *)

Section DerivationProperties.

Variable toLowerCase : jsstring -> jsstring.

Lemma status_callback (s : TaskStatus) (task : Task) :
  bool_decide (status task = s) = true <-> status_pred (Status s) task.
Proof.
  rewrite bool_decide_eq_true. unfold status_pred. split.
  - intros -> _. reflexivity.
  - intros H. assert (Status s = Status (status task)) as E by (apply H; discriminate).
    now injection E.
Qed.

Lemma search_callback (term : jsstring) (task : Task) :
  term <> [] ->
  matchesSearch toLowerCase term task = true <-> search_pred toLowerCase term task.
Proof.
  intros Hne. unfold matchesSearch, search_pred, is_substring.
  rewrite orb_true_iff, !includes_substring. tauto.
Qed.

Lemma filteredByStatus_retains (all : list Task) (filter : StatusFilter) :
  retain (status_pred filter) all (filteredByStatus all filter).
Proof.
  destruct filter as [|s]; simpl.
  - apply retain_all. intros task H. now contradiction H.
  - apply retain_filter. intros task. apply status_callback.
Qed.

Lemma filteredTasks_retains (all : list Task) (term : jsstring)
    (filter : StatusFilter) :
  retain (search_pred toLowerCase term) (filteredByStatus all filter)
    (filteredTasks toLowerCase all term filter).
Proof.
  unfold filteredTasks. destruct (truthy term) eqn:Ht.
  - apply truthy_true in Ht. apply retain_filter.
    intros task. now apply search_callback.
  - apply truthy_false in Ht. apply retain_all. intros task H. now contradiction H.
Qed.

Lemma filteredByStatus_elem (all : list Task) (filter : StatusFilter) (task : Task) :
  task ∈ filteredByStatus all filter <-> task ∈ all /\ status_pred filter task.
Proof.
  destruct filter as [|s]; simpl.
  - unfold status_pred. intuition congruence.
  - rewrite elem_of_filter, status_callback. reflexivity.
Qed.

(** C1: the derived list is the reference derivation of the specification
    (retain by status unless the filter is All, then retain by lower-cased
    substring search unless the term is empty), it is the only list that is,
    it is a subsequence of the collection, and it holds exactly the tasks of
    the collection that satisfy both predicates. *)
Theorem filteredTasks_refines_reference (all : list Task) (term : jsstring)
    (filter : StatusFilter) :
  derived_reference toLowerCase all filter term
    (filteredTasks toLowerCase all term filter)
  /\ (forall result, derived_reference toLowerCase all filter term result ->
        result = filteredTasks toLowerCase all term filter)
  /\ filteredTasks toLowerCase all term filter `sublist_of` all
  /\ (forall task,
        task ∈ filteredTasks toLowerCase all term filter
        <-> task ∈ all /\ status_pred filter task
            /\ search_pred toLowerCase term task).
Proof.
  pose proof (filteredByStatus_retains all filter) as H1.
  pose proof (filteredTasks_retains all term filter) as H2.
  split; [| split; [| split]].
  - exists (filteredByStatus all filter). now split.
  - intros result (kept & K1 & K2).
    rewrite (retain_functional _ _ _ _ K1 H1) in K2.
    exact (retain_functional _ _ _ _ K2 H2).
  - transitivity (filteredByStatus all filter).
    + unfold filteredTasks. destruct (truthy term); [apply filter_sublist | reflexivity].
    + destruct filter; simpl; [reflexivity | apply filter_sublist].
  - intros task. unfold filteredTasks. destruct (truthy term) eqn:Ht.
    + apply truthy_true in Ht.
      rewrite elem_of_filter, filteredByStatus_elem, search_callback by exact Ht.
      tauto.
    + apply truthy_false in Ht. rewrite filteredByStatus_elem.
      unfold search_pred. intuition congruence.
Qed.

(** C9, as the code has it: the search compares lower-cased forms, so two
    search terms with the same lower-cased form, both empty or both not,
    derive the same list from every collection under every status filter. *)
Theorem search_is_case_insensitive (all : list Task) (filter : StatusFilter)
    (term term' : jsstring) :
  toLowerCase term = toLowerCase term' ->
  truthy term = truthy term' ->
  filteredTasks toLowerCase all term filter
  = filteredTasks toLowerCase all term' filter.
Proof.
  intros Hlow Htruthy. unfold filteredTasks. rewrite <- Htruthy.
  destruct (truthy term); [| reflexivity].
  apply filter_ext. intros task. unfold matchesSearch. now rewrite Hlow.
Qed.

(** C10: the search term is used as typed, never trimmed.  A non-empty term
    that trimming would empty (white space only, which lower-casing leaves
    as it is) filters by that literal string: the derived list keeps the
    status-filtered tasks whose lower-cased title or description contains
    it, and no others.  The empty term alone switches the search off. *)
Theorem whitespace_term_is_searched (all : list Task) (filter : StatusFilter)
    (term : jsstring) :
  term <> [] ->
  trim term = [] ->
  toLowerCase term = term ->
  filteredTasks toLowerCase all term filter
  = List.filter
      (fun task => includes (toLowerCase (title task)) term
                   || includes (toLowerCase (description task)) term)
      (filteredByStatus all filter)
  /\ (forall task,
        task ∈ filteredTasks toLowerCase all term filter
        <-> task ∈ filteredByStatus all filter
            /\ (is_substring term (toLowerCase (title task))
                \/ is_substring term (toLowerCase (description task))))
  /\ filteredTasks toLowerCase all [] filter = filteredByStatus all filter.
Proof.
  intros Hne _ Hlow.
  assert (filteredTasks toLowerCase all term filter
          = List.filter
              (fun task => includes (toLowerCase (title task)) term
                           || includes (toLowerCase (description task)) term)
              (filteredByStatus all filter)) as E.
  { unfold filteredTasks. apply truthy_true in Hne. rewrite Hne.
    apply filter_ext. intros task. unfold matchesSearch. now rewrite Hlow. }
  split; [exact E | split; [| reflexivity]].
  intros task. rewrite E, elem_of_filter, orb_true_iff, !includes_substring.
  reflexivity.
Qed.

(** Every non-empty term filters, whatever it is made of. *)
Lemma nonempty_term_is_searched (all : list Task) (filter : StatusFilter)
    (term : jsstring) :
  term <> [] ->
  filteredTasks toLowerCase all term filter
  = List.filter (matchesSearch toLowerCase term) (filteredByStatus all filter).
Proof. intros H. unfold filteredTasks. apply truthy_true in H. now rewrite H. Qed.

End DerivationProperties.

(** ** The handlers *)

Section HandlerProperties.

Variable toLocaleDateString : Z -> jsstring.

Lemma addTask_returns (st : State) :
  forallb is_white (newTaskTitle st) = true
  \/ MAX_CHARACTERS < length (newTaskDescription st) ->
  addTask st = Returned st.
Proof.
  intros H. unfold addTask.
  assert (negb (truthy (trim (newTaskTitle st)))
          || (MAX_CHARACTERS <? length (newTaskDescription st)) = true) as ->;
    [| reflexivity].
  apply orb_true_iff. destruct H as [H | H].
  - left. apply trim_nil in H. now rewrite H.
  - right. now apply Nat.ltb_lt.
Qed.

Lemma addTask_awaits (st : State) :
  forallb is_white (newTaskTitle st) = false ->
  length (newTaskDescription st) <= MAX_CHARACTERS ->
  addTask st = Awaiting (set_isLoading true st).
Proof.
  intros Ht Hd. unfold addTask.
  assert (negb (truthy (trim (newTaskTitle st)))
          || (MAX_CHARACTERS <? length (newTaskDescription st)) = false) as ->;
    [| reflexivity].
  apply orb_false_iff. split.
  - apply negb_false_iff, truthy_true. intros E. apply trim_nil in E. congruence.
  - apply Nat.ltb_ge. exact Hd.
Qed.

(** C2: with a title that is empty or white space only, or a description of
    more than [MAX_CHARACTERS] code units, [addTask] returns at its guard:
    nothing is awaited, so [tasks.update] is never reached, and the state
    (the collection with it) is as before.  A description of exactly 500 is
    let through to the [await]; one of 501 is turned away. *)
Theorem addTask_blocks_invalid_draft (st : State) :
  (forallb is_white (newTaskTitle st) = true
   \/ MAX_CHARACTERS < length (newTaskDescription st) ->
   addTask st = Returned st)
  /\ (forallb is_white (newTaskTitle st) = false ->
      length (newTaskDescription st) = 500 ->
      addTask st = Awaiting (set_isLoading true st))
  /\ (length (newTaskDescription st) = 501 -> addTask st = Returned st).
Proof.
  split; [apply addTask_returns | split].
  - intros Ht Hd. apply addTask_awaits; [exact Ht |].
    unfold MAX_CHARACTERS. lia.
  - intros Hd. apply addTask_returns. right. unfold MAX_CHARACTERS. lia.
Qed.

Lemma map_replace_absent (draft : Task) (l : list Task) :
  (forall task, task ∈ l -> id task <> id draft) ->
  List.map (fun task => if bool_decide (id task = id draft) then draft else task) l
  = l.
Proof.
  induction l as [|x l IH]; intros H; simpl; [reflexivity |].
  rewrite bool_decide_eq_false_2 by (apply H; constructor).
  f_equal. apply IH. intros task Hin. apply H. now constructor.
Qed.

Lemma filter_remove_absent (pending : Task) (l : list Task) :
  (forall task, task ∈ l -> id task <> id pending) ->
  List.filter (fun task => negb (bool_decide (id task = id pending))) l = l.
Proof.
  induction l as [|x l IH]; intros H; simpl; [reflexivity |].
  rewrite bool_decide_eq_false_2 by (apply H; constructor). simpl.
  f_equal. apply IH. intros task Hin. apply H. now constructor.
Qed.

(** C8: when no stored task has the identifier [target], saving an edit
    draft with that identifier and confirming the deletion of a task with
    that identifier both leave the collection as it was, element for
    element.  (Both handlers are total functions: there is no failure to
    raise.) *)
Theorem absent_id_update_remove_noop (st : State) (target : jsstring) :
  Forall (fun task => id task <> target) (tasks st) ->
  (forall draft, currentTask st = Some draft -> id draft = target ->
     tasks (saveEditedTask st) = tasks st)
  /\ (forall pending, pendingTaskToDelete st = Some pending ->
        id pending = target ->
        tasks (deleteTask st) = tasks st).
Proof.
  intros Habsent. rewrite Forall_forall in Habsent. split.
  - intros draft Hc <-. unfold saveEditedTask. rewrite Hc.
    destruct (length (description draft) <=? MAX_CHARACTERS); [| reflexivity].
    simpl. apply map_replace_absent. intros task Hin.
    apply Habsent. now apply list_elem_of_In.
  - intros pending Hp <-. unfold deleteTask. rewrite Hp. simpl.
    apply filter_remove_absent. intros task Hin.
    apply Habsent. now apply list_elem_of_In.
Qed.

(** The resumed part of [addTask] stores the form as it then is, without a
    second look at the guard: the bound on what it appends rests on the
    form. *)
Remark addTask_resume_stores_form (st : State) (uuid : jsstring) (time : Z) :
  tasks (addTask_resume toLocaleDateString uuid time st)
  = tasks st ++ [ {| id := uuid;
                     title := newTaskTitle st;
                     description := newTaskDescription st;
                     status := newTaskStatus st;
                     createdAt := toLocaleDateString time |} ].
Proof. reflexivity. Qed.

End HandlerProperties.

(** ** The running component *)

(** Case analysis on one step: which event, and that its guard held. *)
Ltac fired H :=
  unfold fire, when in H; simpl in H;
  repeat match type of H with
         | (if ?b then _ else _) = Some _ =>
             let G := fresh "Hguard" in destruct b eqn:G; [| discriminate H]
         | match ?n with O => None | S _ => _ end = Some _ =>
             destruct n; [discriminate H |]
         end;
  injection H as <-.

Section SystemProperties.

Variable toLowerCase : jsstring -> jsstring.
Variable now : Z.
Variable toLocaleDateString : Z -> jsstring.

Local Abbreviation fire := (fire toLowerCase now toLocaleDateString).
Local Abbreviation run := (run toLowerCase now toLocaleDateString).
Local Abbreviation reachable := (reachable toLowerCase now toLocaleDateString).
Local Abbreviation reachable_unstacked :=
  (reachable_unstacked toLowerCase now toLocaleDateString).
Local Abbreviation initialTasks := (initialTasks now toLocaleDateString).

Lemma run_reachable (es : list Event) (s s' : System) :
  reachable s -> run es s = Some s' -> reachable s'.
Proof.
  revert s. induction es as [|e es IH]; intros s Hs Hrun; simpl in Hrun.
  - now injection Hrun as <-.
  - destruct (fire e s) as [s1|] eqn:He; [| discriminate].
    eapply IH; [| exact Hrun]. eapply reachable_fire; eauto.
Qed.

Lemma initialTasks_within_limit :
  Forall description_within_limit initialTasks.
Proof.
  repeat constructor; unfold description_within_limit;
    apply Nat.leb_le; vm_compute; reflexivity.
Qed.

Lemma initialTasks_revised_within_limit :
  Forall description_within_limit (initialTasks_revised now toLocaleDateString).
Proof.
  repeat constructor; unfold description_within_limit;
    apply Nat.leb_le; vm_compute; reflexivity.
Qed.

Lemma Forall_filter_bool {A} (P : A -> Prop) (f : A -> bool) (l : list A) :
  Forall P l -> Forall P (List.filter f l).
Proof.
  induction 1 as [|x l HP _ IH]; simpl; [constructor |].
  destruct (f x); [now constructor | exact IH].
Qed.

Lemma Forall_map_choice {A} (P : A -> Prop) (c : A -> bool) (y : A) (l : list A) :
  Forall P l -> P y -> Forall P (List.map (fun x => if c x then y else x) l).
Proof.
  intros Hl Hy. induction Hl as [|x l HP _ IH]; simpl; constructor; auto.
  now destruct (c x).
Qed.

(** What the handlers do for the description bound, one step at a time:
    the stored tasks stay within it through every event, the add timer
    apart, which keeps it when the form's description is within it as the
    timer fires. *)
Lemma stored_bound_step (e : Event) (s s' : System) :
  Forall description_within_limit (tasks (app s)) ->
  match e with
  | AddTimeout _ _ => length (newTaskDescription (app s)) <= MAX_CHARACTERS
  | _ => True
  end ->
  fire e s = Some s' ->
  Forall description_within_limit (tasks (app s')).
Proof.
  intros Hstore Hform Hfire.
  destruct e; fired Hfire; simpl; auto.
  - (* MountTimeout *)
    apply initialTasks_within_limit.
  - (* SubmitAdd *)
    unfold addTask. destruct (negb _ || _); exact Hstore.
  - (* AddTimeout *)
    apply Forall_app. split; [exact Hstore |].
    constructor; [exact Hform | constructor].
  - (* SubmitEdit *)
    unfold saveEditedTask. destruct (currentTask (app s)) as [draft|]; auto.
    destruct (length (description draft) <=? MAX_CHARACTERS) eqn:Hlen; auto.
    simpl. apply Forall_map_choice; [exact Hstore |]. now apply Nat.leb_le in Hlen.
  - (* ConfirmDelete *)
    destruct (pendingTaskToDelete (app s)); simpl; auto.
    now apply Forall_filter_bool.
Qed.

Lemma modals_open_step (e : Event) (s s' : System) :
  modals_open (app s) <= 1 ->
  (opens_modal e = true -> modals_open (app s) = 0) ->
  fire e s = Some s' ->
  modals_open (app s') <= 1.
Proof.
  intros Hone Hidle Hfire. unfold modals_open in *.
  destruct e; fired Hfire; simpl in *;
    try specialize (Hidle eq_refl);
    try (destruct (addTask (app s)) eqn:Hadd; unfold addTask in Hadd;
         destruct (negb _ || _) in Hadd; inversion Hadd; subst; simpl);
    try (unfold saveEditedTask; destruct (currentTask (app s)) as [draft|];
         [destruct (length (description draft) <=? MAX_CHARACTERS) |]; simpl);
    try (destruct (pendingTaskToDelete (app s)); simpl);
    destruct (isAddModalOpen (app s)), (isEditModalOpen (app s)),
      (isDeleteModalOpen (app s)); simpl in *; lia.
Qed.

(** C6, as the code has it: the three flags are independent variables and
    no handler that opens a modal looks at the other two, so exclusion holds
    on the runs in which a modal is opened only while none is open.  On
    those, at most one of the add, edit and delete modals is open in every
    state. *)
Theorem unstacked_modals_exclusive (s : System) :
  reachable_unstacked s -> modals_open (app s) <= 1.
Proof.
  induction 1 as [|e s s' _ IH Hidle Hfire].
  - unfold modals_open. simpl. lia.
  - eapply modals_open_step; eauto.
Qed.

End SystemProperties.

(** ** The component on concrete data *)

Lemma after_reachable (es : list Event) (s : System) :
  page_run es initialSystem = Some s -> page_reachable (after es).
Proof.
  intros H. unfold after. rewrite H. simpl.
  apply (run_reachable _ _ _ es initialSystem); [constructor | exact H].
Qed.

(** Scenarios A, B and C of the specification. *)
Example scenario_A : filteredTasks toLowerCase_ascii [] [] All = [].
Proof. reflexivity. Qed.

Example scenario_B :
  filteredTasks toLowerCase_ascii scenario_store [] (Status Completed)
  = [write_report].
Proof. reflexivity. Qed.

Example scenario_C :
  filteredTasks toLowerCase_ascii scenario_store (js "milk") All = [buy_milk]
  /\ filteredTasks toLowerCase_ascii scenario_store (js "MILK") All = [buy_milk].
Proof. split; reflexivity. Qed.

(** Scenario D: a description of 600 code units is not submitted. *)
Example scenario_D :
  addTask (draft_of (js "Buy milk") (letters 600))
  = Returned (draft_of (js "Buy milk") (letters 600)).
Proof. reflexivity. Qed.

(** Scenario E: deleting a task the store no longer holds. *)
Example scenario_E :
  tasks (deleteTask (set_pendingTaskToDelete (Some buymilk)
                       (set_tasks scenario_store initialState)))
  = scenario_store.
Proof. reflexivity. Qed.

(** A single space as search term drops the task that has no space in it. *)
Example space_term_filters :
  filteredTasks toLowerCase_ascii [buymilk; buy_milk] (js " ") All = [buy_milk]
  /\ filteredTasks toLowerCase_ascii [buymilk; buy_milk] [] All
     = [buymilk; buy_milk].
Proof. split; reflexivity. Qed.

(** The refinement at the scenario store, searching for milk. *)
Lemma filteredTasks_refines_reference_witness :
  derived_reference toLowerCase_ascii scenario_store All (js "milk")
    (filteredTasks toLowerCase_ascii scenario_store (js "milk") All)
  /\ (forall result,
        derived_reference toLowerCase_ascii scenario_store All (js "milk") result ->
        result = filteredTasks toLowerCase_ascii scenario_store (js "milk") All)
  /\ filteredTasks toLowerCase_ascii scenario_store (js "milk") All
     `sublist_of` scenario_store
  /\ (forall task,
        task ∈ filteredTasks toLowerCase_ascii scenario_store (js "milk") All
        <-> task ∈ scenario_store /\ status_pred All task
            /\ search_pred toLowerCase_ascii (js "milk") task).
Proof.
  exact (filteredTasks_refines_reference toLowerCase_ascii scenario_store
           (js "milk") All).
Defined.

(** A title of two spaces is turned away; 500 letters of description pass
    and 501 do not. *)
Lemma addTask_blocks_invalid_draft_witness :
  addTask (draft_of (js "  ") []) = Returned (draft_of (js "  ") [])
  /\ addTask (draft_of (js "Buy milk") (letters 500))
     = Awaiting (set_isLoading true (draft_of (js "Buy milk") (letters 500)))
  /\ addTask (draft_of (js "Buy milk") (letters 501))
     = Returned (draft_of (js "Buy milk") (letters 501)).
Proof.
  split; [| split].
  - apply (proj1 (addTask_blocks_invalid_draft (draft_of (js "  ") []))).
    left. reflexivity.
  - apply (proj1 (proj2 (addTask_blocks_invalid_draft
                           (draft_of (js "Buy milk") (letters 500)))));
      reflexivity.
  - apply (proj2 (proj2 (addTask_blocks_invalid_draft
                           (draft_of (js "Buy milk") (letters 501))))).
    reflexivity.
Defined.

(** Saving and deleting a task that the store does not hold. *)
Lemma absent_id_update_remove_noop_witness :
  let st := set_pendingTaskToDelete (Some buymilk)
              (set_currentTask (Some buymilk)
                 (set_tasks scenario_store initialState)) in
  (forall draft, currentTask st = Some draft -> id draft = js "c" ->
     tasks (saveEditedTask st) = tasks st)
  /\ (forall pending, pendingTaskToDelete st = Some pending ->
        id pending = js "c" ->
        tasks (deleteTask st) = tasks st).
Proof.
  apply (absent_id_update_remove_noop
           (set_pendingTaskToDelete (Some buymilk)
              (set_currentTask (Some buymilk)
                 (set_tasks scenario_store initialState)))
           (js "c")).
  simpl. repeat constructor; discriminate.
Defined.

(** Searching in capitals. *)
Lemma search_is_case_insensitive_witness :
  filteredTasks toLowerCase_ascii scenario_store (js "MILK") All
  = filteredTasks toLowerCase_ascii scenario_store (js "milk") All.
Proof.
  apply (search_is_case_insensitive toLowerCase_ascii scenario_store All
           (js "MILK") (js "milk")); reflexivity.
Defined.

(** Searching for a single space. *)
Lemma whitespace_term_is_searched_witness :
  filteredTasks toLowerCase_ascii [buymilk; buy_milk] (js " ") All
  = List.filter
      (fun task => includes (toLowerCase_ascii (title task)) (js " ")
                   || includes (toLowerCase_ascii (description task)) (js " "))
      (filteredByStatus [buymilk; buy_milk] All)
  /\ (forall task,
        task ∈ filteredTasks toLowerCase_ascii [buymilk; buy_milk] (js " ") All
        <-> task ∈ filteredByStatus [buymilk; buy_milk] All
            /\ (is_substring (js " ") (toLowerCase_ascii (title task))
                \/ is_substring (js " ") (toLowerCase_ascii (description task))))
  /\ filteredTasks toLowerCase_ascii [buymilk; buy_milk] [] All
     = filteredByStatus [buymilk; buy_milk] All.
Proof.
  apply (whitespace_term_is_searched toLowerCase_ascii [buymilk; buy_milk] All
           (js " ")).
  - discriminate.
  - reflexivity.
  - reflexivity.
Defined.

(** One modal opened from the idle page. *)
Lemma unstacked_modals_exclusive_witness :
  modals_open (app (after [MountTimeout; ClickAddNew])) <= 1.
Proof.
  apply (unstacked_modals_exclusive toLowerCase_ascii 0%Z sample_date
           (after [MountTimeout; ClickAddNew])).
  apply (unstacked_fire _ _ _ ClickAddNew (after [MountTimeout])).
  - apply (unstacked_fire _ _ _ MountTimeout initialSystem).
    + constructor.
    + discriminate.
    + reflexivity.
  - reflexivity.
  - reflexivity.
Defined.

(** C6, as stated, fails: with the add modal open, the edit button of a card
    opens the edit modal as well, and both flags are set. *)
Lemma two_modals_open_counterexample :
  ~ (forall s, page_reachable s -> modals_open (app s) <= 1).
Proof.
  intros H.
  specialize (H (after [MountTimeout; ClickAddNew; ClickEdit (seed_task 0)])).
  assert (modals_open
            (app (after [MountTimeout; ClickAddNew; ClickEdit (seed_task 0)]))
          = 2) as E by (vm_compute; reflexivity).
  rewrite E in H. enough (2 <= 1) by lia. apply H.
  apply (after_reachable _ (after [MountTimeout; ClickAddNew; ClickEdit (seed_task 0)])).
  vm_compute. reflexivity.
Qed.

(** C4, where the code departs from it: the edit form is saved with a title
    of one space ([saveEditedTask] looks at the description only), and the
    store then holds a task whose title is white space only. *)
Theorem blank_title_saved_by_edit :
  let s := after [ MountTimeout; ClickEdit (seed_task 0);
                   InputEditTitle (js " "); SubmitEdit ] in
  page_reachable s
  /\ exists task, task ∈ tasks (app s)
                  /\ title task = js " " /\ trim (title task) = [].
Proof.
  split.
  - apply (after_reachable _ (after [ MountTimeout; ClickEdit (seed_task 0);
                                      InputEditTitle (js " "); SubmitEdit ])).
    vm_compute. reflexivity.
  - exists (with_title (js " ") (seed_task 0)).
    split; [| split; reflexivity].
    vm_compute. apply list_elem_of_here.
Qed.

(** C5, where the code departs from it: the add form is submitted and then
    cancelled before the timer fires; when it fires, [addTask] resumes on
    the form as reset by the cancel and appends a task with an empty title
    and an empty description. *)
Theorem cancelled_add_still_appends :
  let s := after [ MountTimeout; ClickAddNew; InputNewTitle (js "Buy milk");
                   SubmitAdd; CancelAdd; AddTimeout (js "uuid-1") 0%Z ] in
  page_reachable s
  /\ tasks (app s)
     = initialTasks 0%Z sample_date
       ++ [mkTask (js "uuid-1") [] [] Pending (sample_date 0%Z)].
Proof.
  split.
  - apply (after_reachable _ (after [ MountTimeout; ClickAddNew;
                                      InputNewTitle (js "Buy milk");
                                      SubmitAdd; CancelAdd;
                                      AddTimeout (js "uuid-1") 0%Z ])).
    vm_compute. reflexivity.
  - vm_compute. reflexivity.
Qed.

(** C3, where the code departs from it: a valid add form is submitted and,
    before the timer fires, a description of 501 code units is entered;
    [addTask] resumes without a second look at its guard and stores it. *)
Theorem overlong_description_stored_by_add :
  let s := after overlong_while_pending in
  page_reachable s
  /\ (exists task, task ∈ tasks (app s) /\ length (description task) = 501)
  /\ ~ Forall description_within_limit (tasks (app s)).
Proof.
  assert (page_run overlong_while_pending initialSystem
          = Some (after overlong_while_pending)) as Hrun
    by (vm_compute; reflexivity).
  assert (mkTask (js "uuid-1") (js "Buy milk") (letters 501) Pending
            (sample_date 0%Z)
          ∈ tasks (app (after overlong_while_pending))) as Hin.
  { vm_compute. do 4 apply list_elem_of_further. apply list_elem_of_here. }
  split; [exact (after_reachable _ _ Hrun) | split].
  - eexists. split; [exact Hin | reflexivity].
  - intros H. rewrite Forall_forall in H. apply list_elem_of_In in Hin.
    apply H in Hin. unfold description_within_limit, MAX_CHARACTERS in Hin.
    change (length (description _)) with (length (letters 501)) in Hin.
    unfold letters in Hin. rewrite repeat_length in Hin. lia.
Qed.

(** C7, where the code departs from it: a valid draft titled Buy milk with
    status Pending is submitted and, before the timer fires, the title
    field is changed and another status selected; the task appended then
    carries the form as changed, not the draft as submitted. *)
Theorem changed_form_appended_by_add :
  let s := after changed_while_pending in
  page_reachable s
  /\ tasks (app s)
     = initialTasks 0%Z sample_date
       ++ [mkTask (js "uuid-1") (js "Changed") [] Completed (sample_date 0%Z)]
  /\ (forall task, task ∈ tasks (app s) -> title task <> js "Buy milk").
Proof.
  assert (page_run changed_while_pending initialSystem
          = Some (after changed_while_pending)) as Hrun
    by (vm_compute; reflexivity).
  assert (tasks (app (after changed_while_pending))
          = initialTasks 0%Z sample_date
            ++ [mkTask (js "uuid-1") (js "Changed") [] Completed
                  (sample_date 0%Z)]) as Htasks
    by (vm_compute; reflexivity).
  split; [exact (after_reachable _ _ Hrun) | split; [exact Htasks |]].
  assert (Forall (fun t => title t <> js "Buy milk")
            (initialTasks 0%Z sample_date
             ++ [mkTask (js "uuid-1") (js "Changed") [] Completed
                   (sample_date 0%Z)])) as Hall
    by (apply (bool_decide_unpack _); vm_compute; exact I).
  rewrite list.Forall_forall in Hall.
  intros task Hin. rewrite Htasks in Hin. exact (Hall task Hin).
Qed.

(** The upper-cased form of the term with the sharp s. *)
Example strasse_upper : toUpperCase_ascii strasse = js "STRASSE".
Proof. reflexivity. Qed.

(** C9, as stated, fails: a term and the same term in capitals can derive
    different lists.  The task titled with a sharp s is found by the term as
    it is written in the title and not by its upper-cased form, whose
    lower-cased form has a double s in place of the sharp s. *)
Lemma upper_cased_term_counterexample :
  ~ (forall (all : list Task) (filter : StatusFilter) (term : jsstring),
       filteredTasks toLowerCase_ascii all (toUpperCase_ascii term) filter
       = filteredTasks toLowerCase_ascii all term filter).
Proof.
  intros H. specialize (H [strasse_task] All strasse).
  vm_compute in H. discriminate H.
Qed.

Example strasse_search :
  filteredTasks toLowerCase_ascii [strasse_task] strasse All = [strasse_task]
  /\ filteredTasks toLowerCase_ascii [strasse_task] (js "STRASSE") All = [].
Proof. split; reflexivity. Qed.

(** * Further properties of the component *)

(** ** Splitting, joining and truncating *)

Lemma split_not_nil (sep : N) (s : jsstring) : split sep s <> [].
Proof.
  destruct s as [|c s]; simpl; [discriminate |].
  destruct (c =? sep)%N; [discriminate |].
  destruct (split sep s); discriminate.
Qed.

Lemma join_cons (sep w : jsstring) (ws : list jsstring) :
  ws <> [] -> join sep (w :: ws) = w ++ sep ++ join sep ws.
Proof. destruct ws; [congruence | reflexivity]. Qed.

Lemma join_split (sep : N) (s : jsstring) : join [sep] (split sep s) = s.
Proof.
  induction s as [|c s IH]; simpl; [reflexivity |].
  destruct (c =? sep)%N eqn:Hc.
  - apply N.eqb_eq in Hc as ->.
    rewrite join_cons by apply split_not_nil. simpl. now rewrite IH.
  - destruct (split sep s) as [|w ws] eqn:Hs; [now apply split_not_nil in Hs |].
    destruct ws as [|w' ws]; simpl in *; now rewrite <- IH.
Qed.

Lemma split_words_clean (sep : N) (s : jsstring) :
  Forall (fun w => sep ∉ w) (split sep s).
Proof.
  induction s as [|c s IH]; simpl.
  - constructor; [apply not_elem_of_nil | constructor].
  - destruct (c =? sep)%N eqn:Hc.
    + constructor; [apply not_elem_of_nil | exact IH].
    + apply N.eqb_neq in Hc. destruct (split sep s) as [|w ws].
      * constructor; [| constructor].
        apply not_elem_of_cons. split; [congruence | apply not_elem_of_nil].
      * inversion IH as [|? ? Hw Hws]; subst. constructor; [| exact Hws].
        apply not_elem_of_cons. split; [congruence | exact Hw].
Qed.

Lemma split_length (sep : N) (s : jsstring) :
  length (split sep s) = S (length (List.filter (fun c => (c =? sep)%N) s)).
Proof.
  induction s as [|c s IH]; simpl; [reflexivity |].
  destruct (c =? sep)%N; simpl; [now rewrite IH |].
  destruct (split sep s); simpl in *; [discriminate | exact IH].
Qed.

Lemma split_clean_word (sep : N) (w : jsstring) :
  sep ∉ w -> split sep w = [w].
Proof.
  induction w as [|c w IH]; intros H; simpl; [reflexivity |].
  apply not_elem_of_cons in H as [Hc Hw].
  destruct (c =? sep)%N eqn:E; [apply N.eqb_eq in E; congruence |].
  now rewrite IH.
Qed.

Lemma split_app_sep (sep : N) (w rest : jsstring) :
  sep ∉ w -> split sep (w ++ sep :: rest) = w :: split sep rest.
Proof.
  induction w as [|c w IH]; intros H; simpl.
  - now rewrite N.eqb_refl.
  - apply not_elem_of_cons in H as [Hc Hw].
    destruct (c =? sep)%N eqn:E; [apply N.eqb_eq in E; congruence |].
    now rewrite IH.
Qed.

Lemma split_join (sep : N) (ws : list jsstring) :
  ws <> [] -> Forall (fun w => sep ∉ w) ws -> split sep (join [sep] ws) = ws.
Proof.
  induction ws as [|w ws IH]; intros Hne Hclean; [congruence |].
  inversion Hclean as [|? ? Hw Hws]; subst.
  destruct ws as [|w' ws].
  - simpl. now apply split_clean_word.
  - rewrite join_cons by discriminate.
    change (w ++ [sep] ++ join [sep] (w' :: ws))
      with (w ++ sep :: join [sep] (w' :: ws)).
    rewrite split_app_sep by exact Hw. f_equal. apply IH; [discriminate | exact Hws].
Qed.

Lemma join_take_prefix (sep : jsstring) (n : nat) (ws : list jsstring) :
  join sep (take n ws) `prefix_of` join sep ws.
Proof.
  revert n. induction ws as [|w ws IH]; intros n.
  - rewrite take_nil. reflexivity.
  - destruct n as [|n]; [apply prefix_nil |].
    destruct ws as [|w' ws]; [rewrite firstn_all2 by (simpl; lia); reflexivity |].
    rewrite (join_cons sep w (w' :: ws)) by discriminate.
    change (take (S n) (w :: w' :: ws)) with (w :: take n (w' :: ws)).
    destruct (take n (w' :: ws)) as [|x xs] eqn:Ht.
    + simpl. now apply prefix_app_r.
    + rewrite join_cons by discriminate. rewrite <- Ht.
      apply prefix_app, prefix_app, IH.
Qed.

(** Splitting a text at its spaces loses nothing: joining the words with
    spaces gives the text back, no word contains a space, and there is one
    word more than there are spaces. *)
Theorem split_join_roundtrip (text : jsstring) :
  join [32%N] (split 32%N text) = text
  /\ Forall (fun w => 32%N ∉ w) (split 32%N text)
  /\ length (split 32%N text)
     = S (length (List.filter (fun c => (c =? 32)%N) text)).
Proof.
  split; [apply join_split | split; [apply split_words_clean | apply split_length]].
Qed.

(** X1: A text with fewer spaces than [maxWords] (the empty text included) is
    shown as it is. *)
Theorem truncateText_short_unchanged (text : jsstring) (maxWords : nat) :
  length (List.filter (fun c => (c =? 32)%N) text) < maxWords ->
  truncateText text maxWords = text.
Proof.
  intros H. unfold truncateText. destruct text as [|c text]; [reflexivity |].
  simpl negb. cbv iota. rewrite split_length.
  destruct (Nat.ltb_spec maxWords
              (S (length (List.filter (fun c0 => (c0 =? 32)%N) (c :: text)))));
    [lia | reflexivity].
Qed.

(** X2: A text with at least [maxWords] spaces is cut: what is shown is a
    prefix of the text followed by three dots, and that prefix is made of
    exactly the first [maxWords] words. *)
Theorem truncateText_long_cut (text : jsstring) (maxWords : nat) :
  0 < maxWords ->
  maxWords <= length (List.filter (fun c => (c =? 32)%N) text) ->
  exists kept,
    truncateText text maxWords = kept ++ js "..."
    /\ kept `prefix_of` text
    /\ split 32%N kept = take maxWords (split 32%N text)
    /\ length (split 32%N kept) = maxWords.
Proof.
  intros Hpos Hmany.
  exists (join [32%N] (take maxWords (split 32%N text))).
  assert (maxWords < length (split 32%N text)) as Hlt by (rewrite split_length; lia).
  assert (split 32%N (join [32%N] (take maxWords (split 32%N text)))
          = take maxWords (split 32%N text)) as Hsplit.
  { apply split_join.
    - intros E. apply (f_equal (@length jsstring)) in E.
      rewrite length_take in E. simpl in E. lia.
    - apply Forall_take, split_words_clean. }
  split; [| split; [| split]].
  - unfold truncateText. destruct text as [|c text]; [simpl in Hmany; lia |].
    simpl negb. cbv iota. cbv zeta. apply Nat.ltb_lt in Hlt. now rewrite Hlt.
  - rewrite <- (join_split 32%N text) at 2. apply join_take_prefix.
  - exact Hsplit.
  - rewrite Hsplit, length_take. lia.
Qed.

(** ** More on the derived list *)

Lemma filter_twice {A} (f g : A -> bool) (l : list A) :
  List.filter g (List.filter f l) = List.filter (fun x => f x && g x) l.
Proof.
  induction l as [|x l IH]; simpl; [reflexivity |].
  destruct (f x); simpl; [destruct (g x) |]; now rewrite IH.
Qed.

Lemma filter_all {A} (l : list A) : List.filter (fun _ => true) l = l.
Proof. induction l; simpl; congruence. Qed.

Lemma map_filter_sublist {A B} (k : A -> B) (f : A -> bool) (l : list A) :
  List.map k (List.filter f l) `sublist_of` List.map k l.
Proof.
  induction l as [|x l IH]; simpl; [constructor |].
  destruct (f x); simpl; [now apply sublist_skip | now apply sublist_cons].
Qed.

Section MoreDerivation.

Variable toLowerCase : jsstring -> jsstring.

(** The two passes amount to one pass with the conjunction of the tests. *)
Lemma filteredTasks_visible (all : list Task) (term : jsstring)
    (filter : StatusFilter) :
  filteredTasks toLowerCase all term filter
  = List.filter (visible toLowerCase term filter) all.
Proof.
  unfold filteredTasks, visible.
  destruct filter as [|s], (truthy term); simpl.
  - reflexivity.
  - now rewrite filter_all.
  - now rewrite filter_twice.
  - apply filter_ext. intros task. now rewrite andb_true_r.
Qed.

(** X3: Deriving from an already derived list changes nothing: what is shown
    under a search term and a status filter is stable under the same term
    and filter. *)
Theorem filteredTasks_idempotent (all : list Task) (term : jsstring)
    (filter : StatusFilter) :
  filteredTasks toLowerCase (filteredTasks toLowerCase all term filter)
    term filter
  = filteredTasks toLowerCase all term filter.
Proof.
  rewrite !filteredTasks_visible, filter_twice.
  apply filter_ext. intros task. apply andb_diag.
Qed.

(** X4: The derived list of a collection extended at its end is the derived
    list of the collection followed by the derived list of the extension:
    appending tasks never reorders or hides what was shown. *)
Theorem filteredTasks_app (all more : list Task) (term : jsstring)
    (filter : StatusFilter) :
  filteredTasks toLowerCase (all ++ more) term filter
  = filteredTasks toLowerCase all term filter
    ++ filteredTasks toLowerCase more term filter.
Proof. rewrite !filteredTasks_visible. apply filter_app. Qed.

(** X5: The status filter and the search can be applied in either order: the
    derived list is the status filter applied to the search result. *)
Theorem filteredTasks_search_then_status (all : list Task) (term : jsstring)
    (filter : StatusFilter) :
  filteredTasks toLowerCase all term filter
  = filteredByStatus (filteredTasks toLowerCase all term All) filter.
Proof.
  rewrite !filteredTasks_visible. unfold visible.
  destruct filter as [|s]; simpl; [reflexivity |].
  rewrite filter_twice. apply filter_ext. intros task. simpl. apply andb_comm.
Qed.

(** X6: When the stored tasks have pairwise different identifiers, so have the
    shown ones: the keys of the card list are unique. *)
Theorem filteredTasks_keys_unique (all : list Task) (term : jsstring)
    (filter : StatusFilter) :
  NoDup (List.map id all) ->
  NoDup (List.map id (filteredTasks toLowerCase all term filter)).
Proof.
  intros H. rewrite filteredTasks_visible.
  eapply sublist_NoDup; [exact H | apply map_filter_sublist].
Qed.

(** X7: Removing the tasks of one identifier and deriving commute: after a
    deletion the shown list is the old shown list without those tasks. *)
Theorem filteredTasks_after_removal (all : list Task) (term : jsstring)
    (filter : StatusFilter) (target : jsstring) :
  filteredTasks toLowerCase
    (List.filter (fun task => negb (bool_decide (id task = target))) all)
    term filter
  = List.filter (fun task => negb (bool_decide (id task = target)))
      (filteredTasks toLowerCase all term filter).
Proof.
  rewrite !filteredTasks_visible, !filter_twice.
  apply filter_ext. intros task. apply andb_comm.
Qed.

End MoreDerivation.

(** ** More on the handlers *)

Lemma map_replace_ids (draft : Task) (l : list Task) :
  List.map id
    (List.map (fun task => if bool_decide (id task = id draft) then draft else task) l)
  = List.map id l.
Proof.
  induction l as [|x l IH]; simpl; [reflexivity |]. rewrite IH. f_equal.
  destruct (bool_decide (id x = id draft)) eqn:E; [| reflexivity].
  now apply bool_decide_eq_true in E.
Qed.

Lemma id_of_lookup (l : list Task) (i : nat) (task : Task) :
  l !! i = Some task -> id task ∈ List.map id l.
Proof.
  intros H. apply list_elem_of_In, in_map, list_elem_of_In.
  eapply list_elem_of_lookup_2, H.
Qed.

Lemma not_in_ids (l : list Task) (target : jsstring) :
  target ∉ List.map id l -> forall task, task ∈ l -> id task <> target.
Proof.
  intros H task Hin E. apply H. subst target.
  apply list_elem_of_In, in_map, list_elem_of_In, Hin.
Qed.

Lemma map_replace_insert (draft old : Task) (l : list Task) (i : nat) :
  NoDup (List.map id l) -> l !! i = Some old -> id old = id draft ->
  List.map (fun task => if bool_decide (id task = id draft) then draft else task) l
  = <[i:=draft]> l.
Proof.
  revert i. induction l as [|x l IH]; intros i Hnd Hi Hid; [discriminate |].
  simpl in Hnd. inversion Hnd as [|? ? Hx Hnd']; subst. clear Hnd.
  destruct i as [|i]; simpl in *.
  - injection Hi as ->. rewrite bool_decide_eq_true_2 by exact Hid. f_equal.
    apply map_replace_absent. rewrite <- Hid. now apply not_in_ids.
  - rewrite bool_decide_eq_false_2.
    + f_equal. now apply IH.
    + intros E. apply Hx. rewrite E, <- Hid. eapply id_of_lookup, Hi.
Qed.

Lemma filter_remove_delete (pending old : Task) (l : list Task) (i : nat) :
  NoDup (List.map id l) -> l !! i = Some old -> id old = id pending ->
  List.filter (fun task => negb (bool_decide (id task = id pending))) l
  = delete i l.
Proof.
  revert i. induction l as [|x l IH]; intros i Hnd Hi Hid; [discriminate |].
  simpl in Hnd. inversion Hnd as [|? ? Hx Hnd']; subst. clear Hnd.
  destruct i as [|i]; simpl in *.
  - injection Hi as ->. rewrite bool_decide_eq_true_2 by exact Hid. simpl.
    apply filter_remove_absent. rewrite <- Hid. now apply not_in_ids.
  - rewrite bool_decide_eq_false_2.
    + simpl. f_equal. now apply IH.
    + intros E. apply Hx. rewrite E, <- Hid. eapply id_of_lookup, Hi.
Qed.

Section MoreHandlers.

Variable toLocaleDateString : Z -> jsstring.

(** X8: Saving an edit never adds, drops or moves a task: the identifiers of
    the collection, in order, are the same before and after, whatever the
    draft. *)
Theorem saveEditedTask_keeps_ids (st : State) :
  List.map id (tasks (saveEditedTask st)) = List.map id (tasks st)
  /\ length (tasks (saveEditedTask st)) = length (tasks st).
Proof.
  assert (List.map id (tasks (saveEditedTask st)) = List.map id (tasks st)) as E.
  { unfold saveEditedTask. destruct (currentTask st) as [draft|]; [| reflexivity].
    destruct (length (description draft) <=? MAX_CHARACTERS); [| reflexivity].
    simpl. apply map_replace_ids. }
  split; [exact E |].
  apply (f_equal (@length jsstring)) in E. now rewrite !length_map in E.
Qed.

(** X9: With pairwise different identifiers in the store, saving a draft whose
    description is within the limit overwrites the one task that has the
    draft's identifier, at its index, with the draft, leaves every other
    index alone, and closes the edit modal. *)
Theorem saveEditedTask_overwrites_in_place (st : State) (draft old : Task)
    (i : nat) :
  NoDup (List.map id (tasks st)) ->
  currentTask st = Some draft ->
  length (description draft) <= MAX_CHARACTERS ->
  tasks st !! i = Some old ->
  id old = id draft ->
  tasks (saveEditedTask st) = <[i:=draft]> (tasks st)
  /\ isEditModalOpen (saveEditedTask st) = false.
Proof.
  intros Hnd Hc Hlen Hi Hid. unfold saveEditedTask. rewrite Hc.
  apply Nat.leb_le in Hlen. rewrite Hlen. simpl.
  split; [| reflexivity]. eapply map_replace_insert; eauto.
Qed.

(** Saving a draft whose description is over the limit does nothing at
    all: the store, the draft and the open modal stay as they are. *)
Theorem saveEditedTask_over_limit_ignored (st : State) (draft : Task) :
  currentTask st = Some draft ->
  MAX_CHARACTERS < length (description draft) ->
  saveEditedTask st = st.
Proof.
  intros Hc Hlen. unfold saveEditedTask. rewrite Hc.
  apply Nat.leb_gt in Hlen. now rewrite Hlen.
Qed.

(** X10: Opening the edit form on a stored task and saving it untouched leaves
    the collection as it was (identifiers pairwise different, description
    within the limit). *)
Theorem edit_without_change_is_noop (st : State) (task : Task) :
  NoDup (List.map id (tasks st)) ->
  task ∈ tasks st ->
  length (description task) <= MAX_CHARACTERS ->
  tasks (saveEditedTask (openEditModal task st)) = tasks st.
Proof.
  intros Hnd Hin Hlen. apply list_elem_of_lookup in Hin as [i Hi].
  unfold saveEditedTask. simpl. apply Nat.leb_le in Hlen. rewrite Hlen. simpl.
  rewrite (map_replace_insert task task (tasks st) i Hnd Hi eq_refl).
  now apply list_insert_id.
Qed.

(** X11: Confirming a deletion removes every task that has the pending task's
    identifier and nothing else; the tasks that stay keep their order. *)
Theorem deleteTask_removes_by_id (st : State) (pending : Task) :
  pendingTaskToDelete st = Some pending ->
  (forall task,
     task ∈ tasks (deleteTask st)
     <-> task ∈ tasks st /\ id task <> id pending)
  /\ tasks (deleteTask st) `sublist_of` tasks st.
Proof.
  intros Hp. unfold deleteTask. rewrite Hp. simpl. split.
  - intros task. rewrite elem_of_filter, negb_true_iff, bool_decide_eq_false.
    reflexivity.
  - apply filter_sublist.
Qed.

(** X12: With pairwise different identifiers in the store, confirming the
    deletion of a task that is stored at index [i] removes exactly that
    index: one task fewer, all others in place. *)
Theorem deleteTask_removes_one (st : State) (pending old : Task) (i : nat) :
  NoDup (List.map id (tasks st)) ->
  pendingTaskToDelete st = Some pending ->
  tasks st !! i = Some old ->
  id old = id pending ->
  tasks (deleteTask st) = delete i (tasks st)
  /\ S (length (tasks (deleteTask st))) = length (tasks st).
Proof.
  intros Hnd Hp Hi Hid.
  assert (tasks (deleteTask st) = delete i (tasks st)) as E.
  { unfold deleteTask. rewrite Hp. simpl. eapply filter_remove_delete; eauto. }
  split; [exact E |]. rewrite E, length_delete by eauto.
  apply lookup_lt_Some in Hi. lia.
Qed.

(** X13: Adding a task under an identifier that no stored task has and then
    deleting it gives the collection back. *)
Theorem add_then_delete_restores (st : State) (uuid : jsstring) (time : Z) :
  uuid ∉ List.map id (tasks st) ->
  let added := addTask_resume toLocaleDateString uuid time st in
  let newTask :=
    {| id := uuid;
       title := newTaskTitle st;
       description := newTaskDescription st;
       status := newTaskStatus st;
       createdAt := toLocaleDateString time |} in
  newTask ∈ tasks added
  /\ tasks (deleteTask (openDeleteModal newTask added)) = tasks st.
Proof.
  intros Hfresh added newTask. split.
  - simpl. apply elem_of_app. right. apply list_elem_of_here.
  - unfold deleteTask. simpl. rewrite filter_app. simpl.
    rewrite bool_decide_eq_true_2 by reflexivity. simpl. rewrite app_nil_r.
    apply (filter_remove_absent newTask). now apply not_in_ids.
Qed.

End MoreHandlers.

(** ** More on the running component *)

(** Unfolding the handlers that branch, in the goal. *)
Ltac branch_handlers s :=
  try (destruct (addTask (app s)) eqn:?Hadd; unfold addTask in *;
       destruct (negb _ || _) in *; inversion Hadd; subst; simpl in * );
  try (unfold saveEditedTask in *;
       destruct (currentTask (app s)) as [?draft|] eqn:?Hcur;
       [destruct (length (description draft) <=? MAX_CHARACTERS) eqn:?Hlen |];
       simpl in * );
  try (destruct (pendingTaskToDelete (app s)) eqn:?Hpend; simpl in * ).

Section MoreSystem.

Variable toLowerCase : jsstring -> jsstring.
Variable now : Z.
Variable toLocaleDateString : Z -> jsstring.

Local Abbreviation fire := (fire toLowerCase now toLocaleDateString).
Local Abbreviation reachable := (reachable toLowerCase now toLocaleDateString).
Local Abbreviation reachable_fresh :=
  (reachable_fresh toLowerCase now toLocaleDateString).


Lemma loading_step (e : Event) (s s' : System) :
  (mountTimer s = isContentLoading (app s)
   /\ (isContentLoading (app s) = true -> s = initialSystem)) ->
  fire e s = Some s' ->
  mountTimer s' = isContentLoading (app s')
  /\ (isContentLoading (app s') = true -> s' = initialSystem).
Proof.
  intros [Hm Hinit] Hfire.
  destruct (isContentLoading (app s)) eqn:Hload.
  - rewrite (Hinit eq_refl) in Hfire.
    destruct e; try discriminate Hfire.
    injection Hfire as <-. simpl. split; [reflexivity | discriminate].
  - clear Hinit.
    destruct e; fired Hfire; simpl in *; try congruence;
      branch_handlers s; rewrite ?Hload, ?Hm;
      (split; [reflexivity | discriminate]).
Qed.

(** X15: Until the mock data arrives the page is exactly as the script left it:
    while [isContentLoading] is set, the mount timer is still to fire, the
    store is empty and nothing else has happened. *)
Theorem nothing_happens_while_loading (s : System) :
  reachable s ->
  mountTimer s = isContentLoading (app s)
  /\ (isContentLoading (app s) = true -> s = initialSystem).
Proof.
  induction 1 as [|e s s' _ IH Hfire].
  - split; reflexivity.
  - eapply loading_step; eauto.
Qed.

Lemma one_add_step (e : Event) (s s' : System) :
  addTimers s = (if isLoading (app s) then 1 else 0) ->
  fire e s = Some s' ->
  addTimers s' = (if isLoading (app s') then 1 else 0).
Proof.
  intros Hinv Hfire.
  destruct e; fired Hfire; simpl in *; try exact Hinv.
  - (* SubmitAdd *)
    destruct (isLoading (app s)) eqn:Hl;
      [rewrite !andb_false_r in Hguard; discriminate |].
    unfold addTask. destruct (negb _ || _); simpl; [now rewrite Hl | now rewrite Hinv].
  - (* AddTimeout *)
    destruct (isLoading (app s)); simpl in *; lia.
  - (* SubmitEdit *)
    branch_handlers s; rewrite ?Hcur; simpl; exact Hinv.
  - (* ConfirmDelete *)
    branch_handlers s; exact Hinv.
Qed.

(** X16: At most one [addTask] call is ever suspended at its [await], and one
    is exactly when [isLoading] is set: the disabled submit button rules
    out a second submission before the first has completed. *)
Theorem one_add_in_flight (s : System) :
  reachable s -> addTimers s = (if isLoading (app s) then 1 else 0).
Proof.
  induction 1 as [|e s s' _ IH Hfire].
  - reflexivity.
  - eapply one_add_step; eauto.
Qed.

Lemma modal_data_step (e : Event) (s s' : System) :
  modal_data_consistent (app s) ->
  fire e s = Some s' ->
  modal_data_consistent (app s').
Proof.
  unfold modal_data_consistent. intros (Hedit & Hdel & Hmsg) Hfire.
  destruct e; fired Hfire; simpl in *; auto.
  - (* SubmitAdd *)
    unfold addTask. destruct (negb _ || _); simpl; auto.
  - (* InputEditTitle *)
    split; [| auto]. intros H. apply fmap_is_Some. auto.
  - (* InputEditDescription *)
    split; [| auto]. intros H. apply fmap_is_Some. auto.
  - (* SelectEditStatus *)
    split; [| auto]. intros H. apply fmap_is_Some. auto.
  - (* SubmitEdit *)
    branch_handlers s; rewrite ?Hcur; simpl; auto.
  - (* CancelEdit *)
    split; [discriminate | auto].
  - (* ClickDelete *)
    split; [exact Hedit | split; [| reflexivity]]. split; eauto.
  - (* ConfirmDelete *)
    destruct (pendingTaskToDelete (app s)); simpl;
      (split; [exact Hedit | split; [| reflexivity]];
       split; [discriminate | intros [? ?]; discriminate]).
  - (* CancelDelete *)
    split; [exact Hedit | split; [| reflexivity]].
    split; [discriminate | intros [? ?]; discriminate].
Qed.

(** X17: The modals always have their data: while the edit modal is open there
    is a draft to edit; the delete modal is open exactly when a task is
    pending deletion, and the confirmation text is then the fixed sentence
    around that task's title, and empty otherwise. *)
Theorem modals_have_their_data (s : System) :
  reachable s -> modal_data_consistent (app s).
Proof.
  induction 1 as [|e s s' _ IH Hfire].
  - split; [discriminate | split; [| reflexivity]].
    split; [discriminate | intros [? ?]; discriminate].
  - eapply modal_data_step; eauto.
Qed.

Lemma form_blank_step (e : Event) (s s' : System) :
  (isAddModalOpen (app s) = false -> form_blank (app s)) ->
  fire e s = Some s' ->
  isAddModalOpen (app s') = false -> form_blank (app s').
Proof.
  unfold form_blank. intros Hinv Hfire.
  destruct e; fired Hfire; simpl in *; intros Hclosed;
    try (repeat split; reflexivity);
    try (apply Hinv; exact Hclosed);
    try congruence;
    try (apply andb_true_iff in Hguard as [Hopen _]; congruence).
  - (* SubmitAdd *)
    revert Hclosed. unfold addTask. destruct (negb _ || _); simpl; exact Hinv.
  - (* SubmitEdit *)
    revert Hclosed. unfold saveEditedTask.
    destruct (currentTask (app s)) as [draft|]; [| exact Hinv].
    destruct (length (description draft) <=? MAX_CHARACTERS); exact Hinv.
  - (* ConfirmDelete *)
    revert Hclosed. destruct (pendingTaskToDelete (app s)); exact Hinv.
Qed.

(** X18: The add modal always opens on a blank form: whenever it is closed, the
    title and the description of the form are empty and its status is
    Pending (both ways of closing it reset the form). *)
Theorem closed_add_form_is_blank (s : System) :
  reachable s -> isAddModalOpen (app s) = false -> form_blank (app s).
Proof.
  induction 1 as [|e s s' _ IH Hfire].
  - intros _. repeat split.
  - eapply form_blank_step; eauto.
Qed.

Lemma initialTasks_ids_unique :
  NoDup (List.map id (initialTasks now toLocaleDateString)).
Proof. apply (bool_decide_unpack _). vm_compute. exact I. Qed.

Lemma ids_unique_step (e : Event) (s s' : System) :
  NoDup (List.map id (tasks (app s))) ->
  fresh_uuid e (app s) ->
  fire e s = Some s' ->
  NoDup (List.map id (tasks (app s'))).
Proof.
  intros Hnd Hfresh Hfire.
  destruct e; fired Hfire; simpl in *; auto.
  - (* MountTimeout *)
    apply initialTasks_ids_unique.
  - (* SubmitAdd *)
    unfold addTask. destruct (negb _ || _); exact Hnd.
  - (* AddTimeout *)
    rewrite map_app. simpl. apply list.NoDup_app.
    split; [exact Hnd | split].
    + intros x Hx Hin. apply list_elem_of_singleton in Hin. congruence.
    + apply NoDup_singleton.
  - (* SubmitEdit *)
    unfold saveEditedTask. destruct (currentTask (app s)) as [draft|]; [| exact Hnd].
    destruct (length (description draft) <=? MAX_CHARACTERS); [| exact Hnd].
    simpl. now rewrite map_replace_ids.
  - (* ConfirmDelete *)
    destruct (pendingTaskToDelete (app s)); [| exact Hnd]. simpl.
    eapply sublist_NoDup; [exact Hnd | apply map_filter_sublist].
Qed.

(** X19: As long as [crypto.randomUUID()] returns identifiers that no stored
    task has, the stored tasks have pairwise different identifiers in every
    state: the mock data has, appending under a fresh identifier keeps it
    so, and neither saving an edit nor deleting can break it. *)
Theorem identifiers_stay_unique (s : System) :
  reachable_fresh s -> NoDup (List.map id (tasks (app s))).
Proof.
  induction 1 as [|e s s' _ IH Hfresh Hfire].
  - apply NoDup_nil_2.
  - eapply ids_unique_step; eauto.
Qed.

Lemma shown_in_store (st : State) (task : Task) :
  task ∈ shown toLowerCase st -> task ∈ tasks st.
Proof.
  unfold shown. rewrite filteredTasks_visible, elem_of_filter. tauto.
Qed.

End MoreSystem.

(** ** Whole flows *)

Section Flows.

Variable toLowerCase : jsstring -> jsstring.
Variable now : Z.
Variable toLocaleDateString : Z -> jsstring.

Local Abbreviation fire := (fire toLowerCase now toLocaleDateString).



(** X22: The delete flow: clicking Delete on a card and confirming removes the
    tasks with the clicked task's identifier (the clicked task among them)
    and no others, and leaves the delete modal closed with nothing pending
    and no confirmation text. *)
Theorem delete_flow_removes_clicked (s s1 s2 : System) (task : Task) :
  fire (ClickDelete task) s = Some s1 ->
  fire ConfirmDelete s1 = Some s2 ->
  tasks (app s2)
  = List.filter (fun t => negb (bool_decide (id t = id task))) (tasks (app s))
  /\ (task ∉ tasks (app s2))
  /\ isDeleteModalOpen (app s2) = false
  /\ pendingTaskToDelete (app s2) = None
  /\ confirmMessage (app s2) = [].
Proof.
  intros H1 H2. fired H1. fired H2. simpl.
  split; [reflexivity | split; [| repeat split]].
  rewrite elem_of_filter, negb_true_iff, bool_decide_eq_false. tauto.
Qed.

End Flows.

(** ** The further properties on concrete data *)

(** Eight letters with one space are shown whole within 100 words. *)
Lemma truncateText_short_unchanged_witness :
  truncateText (js "Buy milk") 100 = js "Buy milk".
Proof.
  apply (truncateText_short_unchanged (js "Buy milk") 100).
  apply Nat.ltb_lt. reflexivity.
Defined.

(** Four words cut after two. *)
Lemma truncateText_long_cut_witness :
  exists kept,
    truncateText (js "a b c d") 2 = kept ++ js "..."
    /\ kept `prefix_of` js "a b c d"
    /\ split 32%N kept = take 2 (split 32%N (js "a b c d"))
    /\ length (split 32%N kept) = 2.
Proof.
  apply (truncateText_long_cut (js "a b c d") 2).
  - lia.
  - apply Nat.leb_le. reflexivity.
Defined.

Example truncateText_cut_example :
  truncateText (js "a b c d") 2 = js "a b...".
Proof. reflexivity. Qed.

(** The scenario store has two identifiers. *)
Lemma filteredTasks_keys_unique_witness :
  NoDup (List.map id
           (filteredTasks toLowerCase_ascii scenario_store (js "r") All)).
Proof.
  apply (filteredTasks_keys_unique toLowerCase_ascii scenario_store (js "r") All).
  apply (bool_decide_unpack _). vm_compute. exact I.
Defined.

Lemma saveEditedTask_overwrites_in_place_witness :
  tasks (saveEditedTask editing_report)
  = <[1:=with_title (js "Write summary") write_report]> (tasks editing_report)
  /\ isEditModalOpen (saveEditedTask editing_report) = false.
Proof.
  apply (saveEditedTask_overwrites_in_place editing_report
           (with_title (js "Write summary") write_report) write_report 1).
  - apply (bool_decide_unpack _). vm_compute. exact I.
  - reflexivity.
  - simpl. lia.
  - reflexivity.
  - reflexivity.
Defined.

(** A draft with 501 letters of description. *)
Lemma saveEditedTask_over_limit_ignored_witness :
  let st := set_currentTask (Some (with_description (letters 501) write_report))
              (set_tasks scenario_store initialState) in
  saveEditedTask st = st.
Proof.
  apply (saveEditedTask_over_limit_ignored
           (set_currentTask (Some (with_description (letters 501) write_report))
              (set_tasks scenario_store initialState))
           (with_description (letters 501) write_report)).
  - reflexivity.
  - apply Nat.ltb_lt. reflexivity.
Defined.

Lemma edit_without_change_is_noop_witness :
  tasks (saveEditedTask
           (openEditModal buy_milk (set_tasks scenario_store initialState)))
  = tasks (set_tasks scenario_store initialState).
Proof.
  apply (edit_without_change_is_noop
           (set_tasks scenario_store initialState) buy_milk).
  - apply (bool_decide_unpack _). vm_compute. exact I.
  - apply list_elem_of_here.
  - simpl. lia.
Defined.

Lemma deleteTask_removes_by_id_witness :
  (forall task,
     task ∈ tasks (deleteTask deleting_milk)
     <-> task ∈ tasks deleting_milk /\ id task <> id buy_milk)
  /\ tasks (deleteTask deleting_milk) `sublist_of` tasks deleting_milk.
Proof.
  apply (deleteTask_removes_by_id deleting_milk buy_milk). reflexivity.
Defined.

Lemma deleteTask_removes_one_witness :
  tasks (deleteTask deleting_milk) = delete 0 (tasks deleting_milk)
  /\ S (length (tasks (deleteTask deleting_milk)))
     = length (tasks deleting_milk).
Proof.
  apply (deleteTask_removes_one deleting_milk buy_milk buy_milk 0).
  - apply (bool_decide_unpack _). vm_compute. exact I.
  - reflexivity.
  - reflexivity.
  - reflexivity.
Defined.

Lemma add_then_delete_restores_witness :
  let st := set_tasks scenario_store (draft_of (js "Call Ann") []) in
  let added := addTask_resume sample_date (js "uuid-1") 0%Z st in
  let newTask := mkTask (js "uuid-1") (js "Call Ann") [] Pending (sample_date 0%Z) in
  newTask ∈ tasks added
  /\ tasks (deleteTask (openDeleteModal newTask added)) = tasks st.
Proof.
  apply (add_then_delete_restores sample_date
           (set_tasks scenario_store (draft_of (js "Call Ann") []))
           (js "uuid-1") 0%Z).
  apply (bool_decide_unpack _). vm_compute. exact I.
Defined.


(** The loaded page with the add modal open. *)
Lemma nothing_happens_while_loading_witness :
  mountTimer (after [MountTimeout; ClickAddNew])
  = isContentLoading (app (after [MountTimeout; ClickAddNew]))
  /\ (isContentLoading (app (after [MountTimeout; ClickAddNew])) = true ->
      after [MountTimeout; ClickAddNew] = initialSystem).
Proof.
  apply (nothing_happens_while_loading toLowerCase_ascii 0%Z sample_date
           (after [MountTimeout; ClickAddNew])).
  apply (after_reachable _ (after [MountTimeout; ClickAddNew])).
  vm_compute. reflexivity.
Defined.

Lemma one_add_in_flight_witness :
  addTimers (after submitted)
  = (if isLoading (app (after submitted)) then 1 else 0).
Proof.
  apply (one_add_in_flight toLowerCase_ascii 0%Z sample_date (after submitted)).
  apply (after_reachable _ (after submitted)). vm_compute. reflexivity.
Defined.

Example one_add_in_flight_example :
  addTimers (after submitted) = 1
  /\ page_run [SubmitAdd] (after submitted) = None.
Proof. split; vm_compute; reflexivity. Qed.

(** The delete modal open on the first task of the mock data. *)
Lemma modals_have_their_data_witness :
  modal_data_consistent (app (after [MountTimeout; ClickDelete (seed_task 0)])).
Proof.
  apply (modals_have_their_data toLowerCase_ascii 0%Z sample_date
           (after [MountTimeout; ClickDelete (seed_task 0)])).
  apply (after_reachable _ (after [MountTimeout; ClickDelete (seed_task 0)])).
  vm_compute. reflexivity.
Defined.

Lemma closed_add_form_is_blank_witness :
  form_blank (app (after typed_and_cancelled)).
Proof.
  apply (closed_add_form_is_blank toLowerCase_ascii 0%Z sample_date
           (after typed_and_cancelled)).
  - apply (after_reachable _ (after typed_and_cancelled)). vm_compute. reflexivity.
  - reflexivity.
Defined.

(** One task added under an identifier the mock data does not use. *)
Lemma identifiers_stay_unique_witness :
  NoDup (List.map id
           (tasks (app (after (submitted ++ [AddTimeout (js "uuid-1") 0%Z]))))).
Proof.
  apply (identifiers_stay_unique toLowerCase_ascii 0%Z sample_date
           (after (submitted ++ [AddTimeout (js "uuid-1") 0%Z]))).
  apply (fresh_fire _ _ _ (AddTimeout (js "uuid-1") 0%Z) (after submitted)).
  - apply (fresh_fire _ _ _ SubmitAdd
             (after [MountTimeout; ClickAddNew; InputNewTitle (js "Buy milk")])).
    + apply (fresh_fire _ _ _ (InputNewTitle (js "Buy milk"))
               (after [MountTimeout; ClickAddNew])).
      * apply (fresh_fire _ _ _ ClickAddNew (after [MountTimeout])).
        -- apply (fresh_fire _ _ _ MountTimeout initialSystem).
           ++ constructor.
           ++ exact I.
           ++ reflexivity.
        -- exact I.
        -- reflexivity.
      * exact I.
      * reflexivity.
    + exact I.
    + vm_compute. reflexivity.
  - apply (bool_decide_unpack _). vm_compute. exact I.
  - vm_compute. reflexivity.
Defined.


(** Deleting the first task of the mock data. *)
Lemma delete_flow_removes_clicked_witness :
  let s := after [MountTimeout] in
  let s2 := after [MountTimeout; ClickDelete (seed_task 0); ConfirmDelete] in
  tasks (app s2)
  = List.filter (fun t => negb (bool_decide (id t = id (seed_task 0))))
      (tasks (app s))
  /\ (seed_task 0 ∉ tasks (app s2))
  /\ isDeleteModalOpen (app s2) = false
  /\ pendingTaskToDelete (app s2) = None
  /\ confirmMessage (app s2) = [].
Proof.
  apply (delete_flow_removes_clicked toLowerCase_ascii 0%Z sample_date
           (after [MountTimeout])
           (after [MountTimeout; ClickDelete (seed_task 0)])
           (after [MountTimeout; ClickDelete (seed_task 0); ConfirmDelete])
           (seed_task 0)).
  - vm_compute. reflexivity.
  - vm_compute. reflexivity.
Defined.
